(** * Notebook engine of claude-code-notebook-mcp (src/server.js as found in
    src/src/client.js, class JupyterMCPServer)

    A shallow embedding of the cell-level operations of the server: every
    tool handler reads the notebook with [fs.readJson], checks its
    arguments, mutates the decoded object in place and persists it with
    [fs.writeJson].  The decoded object is the state of a small
    state-and-exception monad; a thrown [Error] keeps the state as it was at
    the [throw], so that a mutation made before a failing check would show.

    Strings are sequences of code units below 256; indices and counts are
    the integer-valued JS numbers, modelled by [Z]. *)

From Stdlib Require Import ZArith Lia Ascii String List Permutation.
From stdpp Require Import base tactics option list strings gmap pretty.

Set Warnings "-register-all".

Local Open Scope string_scope.
Local Open Scope list_scope.
Local Open Scope Z_scope.

(** ** JS strings *)

Module JsString.

(** The line feed, ['\n']. *)
Definition nl : ascii := "010"%char.
Definition NL : string := String nl EmptyString.
(** The carriage return, ['\r']. *)
Definition cr : ascii := "013"%char.

(** [s.split('\n')]: never empty, [''.split('\n')] is [['']]. *)
Fixpoint split_nl (s : string) : list string :=
  match s with
  | EmptyString => [EmptyString]
  | String c s' =>
      if Ascii.eqb c nl then EmptyString :: split_nl s'
      else match split_nl s' with
           | l :: ls => String c l :: ls
           | [] => [String c EmptyString]
           end
  end.

(** [parts.join(sep)]. *)
Fixpoint join (sep : string) (parts : list string) : string :=
  match parts with
  | [] => EmptyString
  | [p] => p
  | p :: ps => p +:+ sep +:+ join sep ps
  end.

(** [s.startsWith(q)]. *)
Fixpoint startsWith (s q : string) {struct q} : bool :=
  match q, s with
  | EmptyString, _ => true
  | String _ _, EmptyString => false
  | String a q', String b s' => Ascii.eqb a b && startsWith s' q'
  end.

(** [s.includes(q)]: [q] occurs in [s] at some position. *)
Fixpoint includes (s q : string) : bool :=
  startsWith s q ||
  match s with
  | EmptyString => false
  | String _ s' => includes s' q
  end.

(** No line feed among the code units of [s]. *)
Fixpoint nl_free (s : string) : bool :=
  match s with
  | EmptyString => true
  | String c s' => negb (Ascii.eqb c nl) && nl_free s'
  end.

End JsString.
Import JsString.

(** ** JS arrays: [splice] and [slice] *)

Module JsArray.
Section Array.
Context {A : Type}.

(** The relative-index clamp shared by [splice] and [slice]: a negative
    index counts from the end, and the result is kept in [0, len]. *)
Definition clamp (len : nat) (i : Z) : nat :=
  if i <? 0 then Z.to_nat (Z.max (Z.of_nat len + i) 0)
  else Z.to_nat (Z.min i (Z.of_nat len)).

(** How many elements [splice(start, deleteCount, ...)] removes. *)
Definition delete_count (len start : nat) (deleteCount : Z) : nat :=
  Z.to_nat (Z.min (Z.max deleteCount 0) (Z.of_nat len - Z.of_nat start)).

(** The array after [arr.splice(start, deleteCount, ...items)]. *)
Definition splice (arr : list A) (start deleteCount : Z) (items : list A)
  : list A :=
  let s := clamp (length arr) start in
  let d := delete_count (length arr) s deleteCount in
  take s arr ++ items ++ drop (s + d) arr.

(** The value [arr.splice(start, deleteCount)] returns. *)
Definition spliced_out (arr : list A) (start deleteCount : Z) : list A :=
  let s := clamp (length arr) start in
  take (delete_count (length arr) s deleteCount) (drop s arr).

(** [arr.slice(start, end)]. *)
Definition slice (arr : list A) (start stop : Z) : list A :=
  let s := clamp (length arr) start in
  let e := clamp (length arr) stop in
  take (e - s) (drop s arr).

(** [arr.slice(start)]. *)
Definition slice_from (arr : list A) (start : Z) : list A :=
  drop (clamp (length arr) start) arr.
End Array.
End JsArray.
Import JsArray.

(** ** The document model *)

(** Decoded JSON values, as stored in metadata and outputs. *)
Inductive json : Type :=
| JNull
| JBool (b : bool)
| JNum (n : Z)
| JStr (s : string)
| JArr (items : list json)
| JObj (fields : list (string * json)).

(** A cell's [source] is a string or an array of line fragments. *)
Inductive source_t : Type :=
| SrcStr (s : string)
| SrcArr (fragments : list string).

(** A cell object as the handlers create and read it: [cell_type] is a
    string and [source] is present.  A field the handlers add and delete is
    an [option]: [None] is "no such key".  [execution_count] holds [null]
    or a number when present.  Decoded cells without a type or a source
    are values of [json] only, where [validateNotebook] inspects them. *)
Record cell : Type := mkCell {
  cell_type : string;
  metadata : option (gmap string json);
  source : source_t;
  execution_count : option (option Z);
  outputs : option (list json)
}.

Record notebook : Type := mkNotebook {
  cells : list cell;
  nb_metadata : gmap string json;
  nbformat : Z;
  nbformat_minor : Z
}.

Definition set_cells (nb : notebook) (cs : list cell) : notebook :=
  mkNotebook cs (nb_metadata nb) (nbformat nb) (nbformat_minor nb).

Definition set_source (c : cell) (s : source_t) : cell :=
  mkCell (cell_type c) (metadata c) s (execution_count c) (outputs c).

(** [Array.isArray(cell.source) ? cell.source.join('') : cell.source] *)
Definition normalize (s : source_t) : string :=
  match s with
  | SrcStr s => s
  | SrcArr fragments => join "" fragments
  end.

(** [cellType === 'code'] *)
Definition is_code (ty : string) : bool := String.eqb ty "code".

(** ** Errors and the handler monad *)

(** The errors a handler raises, one per [throw new Error(...)] of the
    source, and the [TypeError] of a property access on [undefined]. *)
Inductive error : Type :=
| CellIndexOutOfBounds (cellIndex : Z)
| IndexOutOfBounds
| LineOutOfBounds (lineNumber : Z)
| CannotMerge
| NotACodeCell (cellIndex : Z)
| TypeError.

(** [`${n}`] for an integer-valued number [n]: its decimal digits, given
    for the integers up to 2^53 in magnitude, every one of which is a JS
    number.  Beyond that range not every integer is a number, and from
    1e21 on the notation changes to an exponent: no text is modelled
    there. *)
Definition number_text (n : Z) : option string :=
  if Z.abs n <=? 9007199254740992 then Some (pretty n) else None.

(** [error.message], where the model gives it: the text of the [Error]s the
    handlers construct.  The message of a [TypeError] is the engine's. *)
Definition error_message (e : error) : option string :=
  match e with
  | CellIndexOutOfBounds i =>
      (λ n, "Cell index " +:+ n +:+ " out of bounds") <$> number_text i
  | IndexOutOfBounds => Some "Cell index out of bounds"
  | LineOutOfBounds k =>
      (λ n, "Line number " +:+ n +:+ " out of bounds") <$> number_text k
  | CannotMerge =>
      Some "Cannot merge: cell index out of bounds or no next cell"
  | NotACodeCell i =>
      (λ n, "Cell " +:+ n +:+ " is not a code cell") <$> number_text i
  | TypeError => None
  end.

(** A handler body runs on the decoded notebook object: it returns a value
    or raises, and in both cases leaves the object as mutated so far. *)
Definition M (A : Type) : Type := notebook -> (error + A) * notebook.

#[global] Instance M_ret : MRet M := λ A x nb, (inr x, nb).
#[global] Instance M_bind : MBind M := λ A B f m nb,
  match m nb with
  | (inl e, nb') => (inl e, nb')
  | (inr a, nb') => f a nb'
  end.

Definition throw {A : Type} (e : error) : M A := λ nb, (inl e, nb).
Definition get_notebook : M notebook := λ nb, (inr nb, nb).
Definition modify_cells (f : list cell -> list cell) : M unit :=
  λ nb, (inr (), set_cells nb (f (cells nb))).
Definition modify_metadata (f : gmap string json -> gmap string json)
  : M unit :=
  λ nb, (inr (), mkNotebook (cells nb) (f (nb_metadata nb))
                            (nbformat nb) (nbformat_minor nb)).

(** [arr[i]] for an integer [i]: [undefined] outside the array. *)
Definition at_index {A : Type} (arr : list A) (i : Z) : option A :=
  if i <? 0 then None else arr !! Z.to_nat i.

(** [notebook.cells[i]], then a property access on the result. *)
Definition get_cell (i : Z) : M cell :=
  nb ← get_notebook;
  match at_index (cells nb) i with
  | Some c => mret c
  | None => throw TypeError
  end.

(** An assignment to a property of the object [notebook.cells[i]]: the
    object is looked up, then changed in place. *)
Definition update_cell (i : Z) (f : cell -> cell) : M unit :=
  _ ← get_cell i;
  modify_cells (alter f (Z.to_nat i)).

(** [if (cellIndex >= notebook.cells.length || cellIndex < 0) throw ...] *)
Definition check_cell_index (cellIndex : Z) : M unit :=
  nb ← get_notebook;
  if (cellIndex >=? Z.of_nat (length (cells nb))) || (cellIndex <? 0)
  then throw (CellIndexOutOfBounds cellIndex)
  else mret ().

(** ** Cell construction *)

(** [newCell.execution_count = null; newCell.outputs = [];] *)
Definition reset_execution (c : cell) : cell :=
  mkCell (cell_type c) (metadata c) (source c) (Some None) (Some []).

(** [delete cell.execution_count; delete cell.outputs;] *)
Definition delete_execution (c : cell) : cell :=
  mkCell (cell_type c) (metadata c) (source c) None None.

(** The object literal [{cell_type, metadata: {}, source}] followed by the
    [if (cellType === 'code')] initialisation, as written in [addCell],
    [splitCell] and [bulkAddCells]. *)
Definition new_cell (cellType : string) (src : string) : cell :=
  let newCell := mkCell cellType (Some ∅) (SrcStr src) None None in
  if is_code cellType then reset_execution newCell else newCell.

(** [JSON.parse(JSON.stringify(c))]: a fresh object graph holding the same
    JSON value. *)
Definition json_clone (c : cell) : cell := c.

(** ** Mutation handlers *)

Definition addCell (cellType source : string) (index : Z) : M unit :=
  let newCell := new_cell cellType source in
  modify_cells (λ cs, splice cs (index + 1) 0 [newCell]).

(** The text [addCell] answers with:
    [`Added ${cellType} cell at index ${index + 1}`]. *)
Definition addCell_response (cellType : string) (index : Z) : option string :=
  (λ n, "Added " +:+ cellType +:+ " cell at index " +:+ n)
    <$> number_text (index + 1).

Definition editCell (cellIndex : Z) (newSource : string) : M unit :=
  check_cell_index cellIndex;;
  update_cell cellIndex (λ c, set_source c (SrcStr newSource)).

Definition deleteCell (cellIndex : Z) : M unit :=
  check_cell_index cellIndex;;
  modify_cells (λ cs, splice cs cellIndex 1 []).

Definition changeCellType (cellIndex : Z) (newType : string) : M unit :=
  check_cell_index cellIndex;;
  update_cell cellIndex (λ c,
    let c := mkCell newType (metadata c) (source c)
                    (execution_count c) (outputs c) in
    if is_code newType then reset_execution c else delete_execution c).

(** One copy, as made in the body of the [for] loop of [duplicateCell]. *)
Definition duplicated (originalCell : cell) : cell :=
  let duplicatedCell := json_clone originalCell in
  if is_code (cell_type duplicatedCell) then reset_execution duplicatedCell
  else duplicatedCell.

(** [for (let i = ...; i < count; i++)] with [n] iterations left. *)
Fixpoint duplicate_loop (n : nat) (i cellIndex : Z) (originalCell : cell)
  : M unit :=
  match n with
  | O => mret ()
  | S n' =>
      modify_cells (λ cs, splice cs (cellIndex + 1 + i) 0
                                 [duplicated originalCell]);;
      duplicate_loop n' (i + 1) cellIndex originalCell
  end.

Definition duplicateCell (cellIndex count : Z) : M unit :=
  check_cell_index cellIndex;;
  c ← get_cell cellIndex;
  let originalCell := json_clone c in
  duplicate_loop (Z.to_nat count) 0 cellIndex originalCell.

(** [{ ...old, ...new }] on decoded objects. *)
Definition spread (old new : gmap string json) : gmap string json :=
  new ∪ old.

Definition editMetadata (md : gmap string json) : M unit :=
  modify_metadata (λ old, spread old md).

Definition editCellMetadata (cellIndex : Z) (md : gmap string json)
  : M unit :=
  check_cell_index cellIndex;;
  update_cell cellIndex (λ c,
    mkCell (cell_type c) (Some (spread (default ∅ (metadata c)) md))
           (source c) (execution_count c) (outputs c)).

(** The body shared by [clearCellOutputs] and [clearAllOutputs]:
    [cell.outputs = []; cell.execution_count = null;] for a code cell. *)
Definition clear_outputs (c : cell) : cell :=
  if is_code (cell_type c) then reset_execution c else c.

Definition clearCellOutputs (cellIndex : Z) : M unit :=
  check_cell_index cellIndex;;
  update_cell cellIndex clear_outputs.

Definition clearAllOutputs : M unit :=
  modify_cells (map clear_outputs).

Definition moveCell (fromIndex toIndex : Z) : M unit :=
  nb ← get_notebook;
  let len := Z.of_nat (length (cells nb)) in
  if (fromIndex >=? len) || (fromIndex <? 0)
     || (toIndex >=? len) || (toIndex <? 0)
  then throw IndexOutOfBounds
  else
    let removed := spliced_out (cells nb) fromIndex 1 in
    modify_cells (λ cs, splice cs fromIndex 1 []);;
    match removed with
    | c :: _ => modify_cells (λ cs, splice cs toIndex 0 [c])
    | [] => throw TypeError
    end.

Definition splitCell (cellIndex lineNumber : Z) : M unit :=
  check_cell_index cellIndex;;
  c ← get_cell cellIndex;
  let src := normalize (source c) in
  let lines := split_nl src in
  if (lineNumber >=? Z.of_nat (length lines)) || (lineNumber <? 0)
  then throw (LineOutOfBounds lineNumber)
  else
    let firstPart := join NL (slice lines 0 lineNumber) in
    let secondPart := join NL (slice_from lines lineNumber) in
    update_cell cellIndex (λ c, set_source c (SrcStr firstPart));;
    let newCell := new_cell (cell_type c) secondPart in
    modify_cells (λ cs, splice cs (cellIndex + 1) 0 [newCell]).

Definition mergeCells (cellIndex : Z) : M unit :=
  nb ← get_notebook;
  if (cellIndex >=? Z.of_nat (length (cells nb)) - 1) || (cellIndex <? 0)
  then throw CannotMerge
  else
    currentCell ← get_cell cellIndex;
    nextCell ← get_cell (cellIndex + 1);
    let currentSource := normalize (source currentCell) in
    let nextSource := normalize (source nextCell) in
    update_cell cellIndex (λ c,
      set_source c (SrcStr (currentSource +:+ NL +:+ nextSource)));;
    modify_cells (λ cs, splice cs (cellIndex + 1) 1 []).

Definition editCellOutput (cellIndex : Z) (outs : list json) : M unit :=
  check_cell_index cellIndex;;
  c ← get_cell cellIndex;
  if negb (is_code (cell_type c)) then throw (NotACodeCell cellIndex)
  else
    update_cell cellIndex (λ c,
      mkCell (cell_type c) (metadata c) (source c)
             (execution_count c) (Some outs)).

Definition bulkAddCells (cellData : list (string * string)) (index : Z)
  : M unit :=
  let newCells := map (λ d, new_cell d.1 d.2) cellData in
  modify_cells (λ cs, splice cs (index + 1) 0 newCells).

(** ** Regular expressions of [getOutline]

    The three patterns of the source are a [^] under the [m] flag followed
    by literals and greedy [+] repetitions of a character class, one of
    them captured.  [match_seq] is the backtracking matcher for such a
    sequence, [regex_match] the leftmost search [String.prototype.match]
    performs for a pattern without the [g] flag. *)

Module Regex.

Definition code_of (c : ascii) : N := N_of_ascii c.

(** [\s] restricted to code units below 256. *)
Definition is_space (c : ascii) : bool :=
  let n := code_of c in
  ((9 <=? n) && (n <=? 13) || (n =? 32) || (n =? 160))%N.

(** [\w]: [[A-Za-z0-9_]]. *)
Definition is_word (c : ascii) : bool :=
  let n := code_of c in
  ((65 <=? n) && (n <=? 90) || (97 <=? n) && (n <=? 122)
   || (48 <=? n) && (n <=? 57) || (n =? 95))%N.

(** LineTerminator, restricted to code units below 256: LF and CR. *)
Definition is_line_terminator (c : ascii) : bool :=
  Ascii.eqb c nl || Ascii.eqb c cr.

(** [.] without the [s] flag. *)
Definition is_dot (c : ascii) : bool := negb (is_line_terminator c).

Definition is_hash (c : ascii) : bool := Ascii.eqb c "#"%char.

Inductive item : Type :=
| Lit (c : ascii)
| Plus (captured : bool) (class : ascii -> bool).

Fixpoint stake (n : nat) (s : string) : string :=
  match n, s with
  | S n', String c s' => String c (stake n' s')
  | _, _ => EmptyString
  end.

Fixpoint sdrop (n : nat) (s : string) : string :=
  match n, s with
  | S n', String _ s' => sdrop n' s'
  | _, _ => s
  end.

(** Length of the longest prefix of [s] within [class]. *)
Fixpoint run_length (class : ascii -> bool) (s : string) : nat :=
  match s with
  | String c s' => if class c then S (run_length class s') else O
  | EmptyString => O
  end.

(** Match the items at the start of [s]; the result lists the captures.
    A [+] first takes the longest run and gives characters back one at a
    time while the rest of the pattern fails. *)
Fixpoint match_seq (items : list item) (s : string) : option (list string) :=
  match items with
  | [] => Some []
  | Lit c :: items' =>
      match s with
      | String a s' => if Ascii.eqb a c then match_seq items' s' else None
      | EmptyString => None
      end
  | Plus captured class :: items' =>
      (fix try (k : nat) : option (list string) :=
         match k with
         | O => None
         | S k' =>
             match match_seq items' (sdrop k s) with
             | Some caps =>
                 Some (if captured then stake k s :: caps else caps)
             | None => try k'
             end
         end) (run_length class s)
  end.

(** The search under [^] with the [m] flag: the pattern is tried at the
    start of the input and after every line terminator, leftmost first. *)
Fixpoint search_from (at_line_start : bool) (items : list item) (s : string)
  : option (list string) :=
  match (if at_line_start then match_seq items s else None) with
  | Some caps => Some caps
  | None =>
      match s with
      | EmptyString => None
      | String c s' => search_from (is_line_terminator c) items s'
      end
  end.

Definition regex_match (items : list item) (s : string)
  : option (list string) :=
  search_from true items s.

Definition lits (s : string) : list item :=
  map Lit (list_ascii_of_string s).

(** [/^#+\s+(.+)/m] *)
Definition header_re : list item :=
  [Plus false is_hash; Plus false is_space; Plus true is_dot].
(** [/^def\s+(\w+)/m] *)
Definition def_re : list item :=
  lits "def" ++ [Plus false is_space; Plus true is_word].
(** [/^class\s+(\w+)/m] *)
Definition class_re : list item :=
  lits "class" ++ [Plus false is_space; Plus true is_word].

(** [m[1]] of a successful match. *)
Definition group1 (caps : list string) : string := default "" (head caps).

End Regex.
Import Regex.

(** ** Query handlers *)

(** The text appended to [title] by the [if]/[else if] chain of
    [getOutline]. *)
Definition title_suffix (c : cell) : string :=
  let src := normalize (source c) in
  if String.eqb (cell_type c) "markdown" then
    match regex_match header_re src with
    | Some headerMatch => " - " +:+ group1 headerMatch
    | None => ""
    end
  else if is_code (cell_type c) then
    let defMatch := regex_match def_re src in
    let classMatch := regex_match class_re src in
    match defMatch, classMatch with
    | Some defMatch, _ => " - def " +:+ group1 defMatch +:+ "()"
    | None, Some classMatch => " - class " +:+ group1 classMatch
    | None, None => ""
    end
  else "".

Definition outline_entry (index : nat) (c : cell) : string :=
  let src := normalize (source c) in
  let lines := split_nl src in
  let lineCount := length lines in
  let title := "Cell " +:+ pretty index +:+ " (" +:+ cell_type c +:+ ")" in
  let title := title +:+ title_suffix c in
  title +:+ " (" +:+ pretty lineCount +:+ " lines)".

Definition getOutline (nb : notebook) : string :=
  join NL (imap outline_entry (cells nb)).

(** [toLowerCase] on the strings of the model, code units below 256: there
    the letters A-Z and the letters U+00C0-U+00DE other than the
    multiplication sign move up by 32 and every other unit stays.  The
    rules of the full conversion that look at neighbouring characters
    (the final form of the capital sigma) or change the length concern
    code units above 255, which these strings do not hold. *)
Definition lower_unit (c : ascii) : ascii :=
  let n := N_of_ascii c in
  if ((65 <=? n) && (n <=? 90)
      || (192 <=? n) && (n <=? 222) && negb (n =? 215))%N
  then ascii_of_N (n + 32) else c.

Fixpoint toLowerCase (s : string) : string :=
  match s with
  | EmptyString => EmptyString
  | String c s' => String (lower_unit c) (toLowerCase s')
  end.

Fixpoint trim_start (s : string) : string :=
  match s with
  | String c s' => if is_space c then trim_start s' else s
  | EmptyString => EmptyString
  end.

(** [s.trim()] *)
Definition trim (s : string) : string :=
  String.rev (trim_start (String.rev (trim_start s))).

Record line_match : Type := mkLineMatch {
  line_number : Z;
  content : string
}.

Record search_result : Type := mkSearchResult {
  cell_index : nat;
  result_cell_type : string;
  matches : list line_match
}.

(** [caseSensitive ? s : s.toLowerCase()] *)
Definition fold_case (caseSensitive : bool) (s : string) : string :=
  if caseSensitive then s else toLowerCase s.

(** The lines kept by the [filter] of [searchNotebook], with their index. *)
Definition matchingLines (caseSensitive : bool) (searchQuery : string)
    (lines : list string) : list (nat * string) :=
  filter (λ p, includes (fold_case caseSensitive p.2) searchQuery = true)
         (imap (λ lineIndex line, (lineIndex, line)) lines).

(** The body of the [forEach] callback: the entry pushed for one cell, if
    any. *)
Definition search_cell (query : string) (caseSensitive : bool)
    (index : nat) (c : cell) : option search_result :=
  let src := normalize (source c) in
  let searchText := fold_case caseSensitive src in
  let searchQuery := fold_case caseSensitive query in
  if includes searchText searchQuery then
    let lines := split_nl src in
    Some (mkSearchResult index (cell_type c)
            (map (λ p, mkLineMatch (Z.of_nat p.1 + 1) (trim p.2))
                 (matchingLines caseSensitive searchQuery lines)))
  else None.

Definition searchNotebook (nb : notebook) (query : string)
    (caseSensitive : bool) : list search_result :=
  omap id (imap (search_cell query caseSensitive) (cells nb)).

(** ** The tool dispatcher *)

(** The mutation tools of the [switch] in [setupToolHandlers], with the
    arguments each [case] reads from [args].  [count] is optional in the
    input schema. *)
Inductive request : Type :=
| notebook_add_cell (cell_type source : string) (index : Z)
| notebook_edit_cell (cell_index : Z) (new_source : string)
| notebook_delete_cell (cell_index : Z)
| notebook_change_cell_type (cell_index : Z) (new_type : string)
| notebook_duplicate_cell (cell_index : Z) (count : option Z)
| notebook_edit_metadata (md : gmap string json)
| notebook_edit_cell_metadata (cell_index : Z) (md : gmap string json)
| notebook_clear_cell_outputs (cell_index : Z)
| notebook_clear_all_outputs
| notebook_move_cell (from_index to_index : Z)
| notebook_split_cell (cell_index line_number : Z)
| notebook_merge_cells (cell_index : Z)
| notebook_edit_cell_output (cell_index : Z) (outs : list json)
| notebook_bulk_add_cells (cell_data : list (string * string)) (index : Z).

(** [args.count || d]: a missing or zero count is falsy. *)
Definition or_default (count : option Z) (d : Z) : Z :=
  match count with
  | Some n => if n =? 0 then d else n
  | None => d
  end.

Definition handle (req : request) : M unit :=
  match req with
  | notebook_add_cell ty src index => addCell ty src index
  | notebook_edit_cell i src => editCell i src
  | notebook_delete_cell i => deleteCell i
  | notebook_change_cell_type i ty => changeCellType i ty
  | notebook_duplicate_cell i count => duplicateCell i (or_default count 1)
  | notebook_edit_metadata md => editMetadata md
  | notebook_edit_cell_metadata i md => editCellMetadata i md
  | notebook_clear_cell_outputs i => clearCellOutputs i
  | notebook_clear_all_outputs => clearAllOutputs
  | notebook_move_cell i j => moveCell i j
  | notebook_split_cell i k => splitCell i k
  | notebook_merge_cells i => mergeCells i
  | notebook_edit_cell_output i outs => editCellOutput i outs
  | notebook_bulk_add_cells cs index => bulkAddCells cs index
  end.

(** One request against the persisted notebook: the handler runs on the
    decoded file; [fs.writeJson] is reached only when nothing was thrown,
    and the [catch] of the dispatcher turns an error into a response. *)
Definition call_tool (req : request) (file : notebook)
  : option error * notebook :=
  match handle req file with
  | (inr _, nb') => (None, nb')
  | (inl e, _) => (Some e, file)
  end.

(** ** Specification-side notions *)

(** [0 <= i < len] *)
Definition in_range (len : nat) (i : Z) : bool :=
  (0 <=? i) && (i <? Z.of_nat len).

(** [lineCount(source)] of a cell. *)
Definition line_count (c : cell) : nat :=
  length (split_nl (normalize (source c))).

(** The precondition column of the operation table. *)
Definition precondition (req : request) (nb : notebook) : bool :=
  let len := length (cells nb) in
  match req with
  | notebook_add_cell _ _ _ => true
  | notebook_bulk_add_cells _ _ => true
  | notebook_edit_metadata _ => true
  | notebook_clear_all_outputs => true
  | notebook_edit_cell i _ => in_range len i
  | notebook_delete_cell i => in_range len i
  | notebook_change_cell_type i _ => in_range len i
  | notebook_duplicate_cell i _ => in_range len i
  | notebook_edit_cell_metadata i _ => in_range len i
  | notebook_clear_cell_outputs i => in_range len i
  | notebook_move_cell i j => in_range len i && in_range len j
  | notebook_split_cell i k =>
      match at_index (cells nb) i with
      | Some c => in_range (line_count c) k
      | None => false
      end
  | notebook_merge_cells i => in_range (len - 1) i
  | notebook_edit_cell_output i _ =>
      match at_index (cells nb) i with
      | Some c => is_code (cell_type c)
      | None => false
      end
  end.

(** The cell invariant of the data model: a code cell carries both
    [execution_count] and [outputs], any other cell carries neither. *)
Definition cell_wf (c : cell) : Prop :=
  if is_code (cell_type c)
  then is_Some (execution_count c) ∧ is_Some (outputs c)
  else execution_count c = None ∧ outputs c = None.

Definition notebook_wf (nb : notebook) : Prop := Forall cell_wf (cells nb).

(** The suffixes of [s] that begin a line in the sense of [^] under the
    [m] flag: [s] itself and what follows each line terminator, in order.
    [fresh] tells whether the current position starts a line. *)
Fixpoint line_starts_from (fresh : bool) (s : string) : list string :=
  (if fresh then [s] else []) ++
  match s with
  | EmptyString => []
  | String c s' => line_starts_from (is_line_terminator c) s'
  end.

Definition line_starts (s : string) : list string := line_starts_from true s.




(** Every code unit of [s] is in [class]. *)
Fixpoint all_in (class : ascii -> bool) (s : string) : bool :=
  match s with
  | EmptyString => true
  | String c s' => class c && all_in class s'
  end.

(** No carriage return among the code units of [s]. *)
Definition cr_free (s : string) : bool :=
  all_in (λ c, negb (Ascii.eqb c cr)) s.

(** ** Sample documents *)

Definition code_cell (src : string) (count : option Z) (outs : list json)
  : cell :=
  mkCell "code" (Some ∅) (SrcStr src) (Some count) (Some outs).

Definition two_lines : string := "a" +:+ NL +:+ "b".

(** A notebook with an executed two-line code cell and a heading. *)
Definition sample_notebook : notebook :=
  mkNotebook
    [code_cell two_lines (Some 3) [JStr "out"]; new_cell "markdown" "# Title"]
    ∅ 4 4.

(** [createEmptyNotebook()], with the document metadata left out. *)
Definition empty_notebook : notebook := mkNotebook [] ∅ 4 4.


(** ** Read handlers *)

Definition readCell (cellIndex : Z) : M string :=
  check_cell_index cellIndex;;
  c ← get_cell cellIndex;
  mret (normalize (source c)).

(** [notebook.cells[cellIndex].metadata || {}] *)
Definition readCellMetadata (cellIndex : Z) : M (gmap string json) :=
  check_cell_index cellIndex;;
  c ← get_cell cellIndex;
  mret (default ∅ (metadata c)).

(** [cell.outputs || []] *)
Definition readCellOutput (cellIndex : Z) : M (list json) :=
  check_cell_index cellIndex;;
  c ← get_cell cellIndex;
  mret (default [] (outputs c)).

Definition getCellCount : M nat :=
  nb ← get_notebook; mret (length (cells nb)).

Definition readMetadata : M (gmap string json) :=
  nb ← get_notebook; mret (nb_metadata nb).

(** ** Creation, information and validation *)

Definition createEmptyNotebook : notebook :=
  mkNotebook []
    (<["kernelspec" :=
         JObj [("display_name", JStr "Python 3"); ("language", JStr "python");
               ("name", JStr "python3")]]>
       (<["language_info" :=
            JObj [("name", JStr "python"); ("version", JStr "3.8.0")]]> ∅))
    4 4.

(** The property [k] of a decoded object, whose keys are distinct. *)
Fixpoint assoc (k : string) (fields : list (string * json)) : option json :=
  match fields with
  | [] => None
  | (k', v) :: fields' => if String.eqb k k' then Some v else assoc k fields'
  end.

(** JS truthiness of a decoded JSON value. *)
Definition truthy (v : json) : bool :=
  match v with
  | JNull => false
  | JBool b => b
  | JNum n => negb (n =? 0)
  | JStr s => negb (String.eqb s "")
  | JArr _ | JObj _ => true
  end.

(** [v?.name || 'unknown'], [v] being a property that may be missing. *)
Definition name_or_unknown (v : option json) : json :=
  let name :=
    match v with
    | Some (JObj fields) => assoc "name" fields
    | _ => None
    end in
  match name with
  | Some n => if truthy n then n else JStr "unknown"
  | None => JStr "unknown"
  end.

Record notebook_info : Type := mkInfo {
  info_cell_count : nat;
  info_code_cells : nat;
  info_markdown_cells : nat;
  info_raw_cells : nat;
  info_nbformat : Z;
  info_nbformat_minor : Z;
  info_kernel : json;
  info_language : json
}.

(** [notebook.cells.filter(cell => cell.cell_type === ty).length] *)
Definition count_type (ty : string) (cs : list cell) : nat :=
  length (filter (λ c, cell_type c = ty) cs).

Definition getNotebookInfo (nb : notebook) : notebook_info :=
  mkInfo (length (cells nb))
         (count_type "code" (cells nb))
         (count_type "markdown" (cells nb))
         (count_type "raw" (cells nb))
         (nbformat nb) (nbformat_minor nb)
         (name_or_unknown (nb_metadata nb !! "kernelspec"))
         (name_or_unknown (nb_metadata nb !! "language_info")).

(** What [validateNotebook] reports when it fails: one constructor per
    [throw] of its [try] block, and the [TypeError] of an [in] or a
    property access on a value that allows neither. *)
Inductive validation_error : Type :=
| MissingRequiredFields (missing : list string)
| CellsNotArray
| InvalidCellType (i : nat) (found : option json)
| MissingSource (i : nat)
| ValidationTypeError.

Definition requiredFields : list string :=
  ["cells"; "metadata"; "nbformat"; "nbformat_minor"].

(** [['code', 'markdown', 'raw'].includes(v)] *)
Definition recognized_type (ty : string) : bool :=
  String.eqb ty "code" || String.eqb ty "markdown" || String.eqb ty "raw".

Definition recognized (v : option json) : bool :=
  match v with
  | Some (JStr ty) => recognized_type ty
  | _ => false
  end.

(** The body of the [for] loop of [validateNotebook] for the cell at
    index [i]; [None] when the cell passes. *)
Definition validate_cell (i : nat) (c : json) : option validation_error :=
  match c with
  | JNull => Some ValidationTypeError
  | JObj fields =>
      let found := assoc "cell_type" fields in
      if negb (from_option truthy false found) || negb (recognized found)
      then Some (InvalidCellType i found)
      else if bool_decide (assoc "source" fields = None)
           then Some (MissingSource i)
           else None
  | _ => Some (InvalidCellType i None)
  end.

(** The loop over [notebook.cells] from index [i] on: the first failure. *)
Fixpoint validate_cells (i : nat) (cs : list json) : option validation_error :=
  match cs with
  | [] => None
  | c :: cs' =>
      match validate_cell i c with
      | Some e => Some e
      | None => validate_cells (S i) cs'
      end
  end.

(** [validateNotebook] on the decoded file: [None] is "Notebook validation
    passed", [Some e] is "Validation failed" with the message of [e]. *)
Definition validateNotebook (doc : json) : option validation_error :=
  match doc with
  | JObj fields =>
      let missingFields :=
        filter (λ field, assoc field fields = None) requiredFields in
      if bool_decide (missingFields = []) then
        match assoc "cells" fields with
        | Some (JArr cs) => validate_cells 0 cs
        | _ => Some CellsNotArray
        end
      else Some (MissingRequiredFields missingFields)
  | JArr _ => Some (MissingRequiredFields requiredFields)
  | _ => Some ValidationTypeError
  end.

(** ** Records as decoded objects

    The JS object a cell record stands for, with the keys in the order of
    the object literals of [addCell], and the document around it: what
    [fs.writeJson] serializes and [fs.readJson] gives back. *)

Definition source_to_json (s : source_t) : json :=
  match s with
  | SrcStr s => JStr s
  | SrcArr fragments => JArr (map JStr fragments)
  end.

Definition object_of (m : gmap string json) : json := JObj (map_to_list m).

Definition cell_to_json (c : cell) : json :=
  JObj ([("cell_type", JStr (cell_type c))]
        ++ from_option (λ m, [("metadata", object_of m)]) [] (metadata c)
        ++ [("source", source_to_json (source c))]
        ++ from_option
             (λ n, [("execution_count", from_option JNum JNull n)]) []
             (execution_count c)
        ++ from_option (λ outs, [("outputs", JArr outs)]) [] (outputs c)).

Definition notebook_to_json (nb : notebook) : json :=
  JObj [("cells", JArr (map cell_to_json (cells nb)));
        ("metadata", object_of (nb_metadata nb));
        ("nbformat", JNum (nbformat nb));
        ("nbformat_minor", JNum (nbformat_minor nb))].

(** ** Sessions *)

(** A run of tool calls against one notebook file, each call reading what
    the previous one persisted. *)
Definition call_tools (reqs : list request) (file : notebook) : notebook :=
  foldl (λ nb req, (call_tool req nb).2) file reqs.

(** The cell types a request introduces are all of the schema's
    enumeration. *)
Definition request_types_recognized (req : request) : bool :=
  match req with
  | notebook_add_cell ty _ _ => recognized_type ty
  | notebook_change_cell_type _ ty => recognized_type ty
  | notebook_bulk_add_cells cellData _ =>
      forallb (λ d, recognized_type d.1) cellData
  | _ => true
  end.

(** How a successful request changes the number of cells. *)
Definition count_change (req : request) : Z :=
  match req with
  | notebook_add_cell _ _ _ => 1
  | notebook_bulk_add_cells cellData _ => Z.of_nat (length cellData)
  | notebook_delete_cell _ => -1
  | notebook_duplicate_cell _ count => Z.max (or_default count 1) 0
  | notebook_split_cell _ _ => 1
  | notebook_merge_cells _ => -1
  | _ => 0
  end.

(** [addCell] for each entry in turn, the anchor moving on by one. *)
Fixpoint add_each (cellData : list (string * string)) (index : Z) : M unit :=
  match cellData with
  | [] => mret ()
  | d :: rest => addCell d.1 d.2 index;; add_each rest (index + 1)
  end.

(** * Properties *)

(** ** Arrays *)

Section ArrayFacts.
Context {A : Type}.
Implicit Types (l items : list A) (i : Z).

Lemma clamp_in_range (len : nat) i :
  0 <= i <= Z.of_nat len -> clamp len i = Z.to_nat i.
Proof.
  intros H. unfold clamp.
  destruct (Z.ltb_spec i 0); [lia|]. f_equal. lia.
Qed.

Lemma clamp_above (len : nat) i : Z.of_nat len <= i -> clamp len i = len.
Proof.
  intros H. unfold clamp. destruct (Z.ltb_spec i 0); lia.
Qed.

Lemma clamp_below (len : nat) i :
  i < 0 -> clamp len i = Z.to_nat (Z.max (Z.of_nat len + i) 0).
Proof.
  intros H. unfold clamp. destruct (Z.ltb_spec i 0); [done|lia].
Qed.

Lemma clamp_le (len : nat) i : (clamp len i <= len)%nat.
Proof.
  unfold clamp. destruct (Z.ltb_spec i 0); lia.
Qed.

Lemma splice_insert l i items :
  splice l i 0 items
  = take (clamp (length l) i) l ++ items ++ drop (clamp (length l) i) l.
Proof.
  unfold splice, delete_count.
  pose proof (clamp_le (length l) i).
  replace (Z.to_nat _) with 0%nat by lia.
  by rewrite Nat.add_0_r.
Qed.

Lemma splice_delete_one l i :
  0 <= i < Z.of_nat (length l) ->
  splice l i 1 [] = delete (Z.to_nat i) l.
Proof.
  intros H. unfold splice, delete_count.
  rewrite clamp_in_range by lia.
  replace (Z.to_nat (Z.min _ _)) with 1%nat by lia.
  rewrite delete_take_drop. simpl. do 2 f_equal. lia.
Qed.

Lemma spliced_out_one l i x :
  0 <= i -> l !! Z.to_nat i = Some x -> spliced_out l i 1 = [x].
Proof.
  intros Hi Hx. unfold spliced_out, delete_count.
  pose proof (lookup_lt_Some _ _ _ Hx) as Hlt.
  rewrite clamp_in_range by lia.
  replace (Z.to_nat (Z.min _ _)) with 1%nat by lia.
  rewrite (drop_S _ _ _ Hx). done.
Qed.

Lemma at_index_Some l i x :
  at_index l i = Some x <-> 0 <= i ∧ l !! Z.to_nat i = Some x.
Proof.
  unfold at_index. destruct (Z.ltb_spec i 0); split; try done.
  - intros [? _]. lia.
  - intros [_ ?]. done.
Qed.

Lemma in_range_spec (len : nat) i :
  in_range len i = true <-> 0 <= i < Z.of_nat len.
Proof.
  unfold in_range. rewrite andb_true_iff, Z.leb_le, Z.ltb_lt. done.
Qed.

Lemma at_index_in_range l i :
  in_range (length l) i = true <-> is_Some (at_index l i).
Proof.
  rewrite in_range_spec. unfold at_index.
  destruct (Z.ltb_spec i 0).
  - split; [lia|]. by intros [? ?].
  - rewrite lookup_lt_is_Some. lia.
Qed.

Lemma in_range_false (len : nat) i :
  in_range len i = false <-> ¬ (0 <= i < Z.of_nat len).
Proof.
  rewrite <- in_range_spec. destruct (in_range len i); naive_solver.
Qed.

Lemma bounds_check (len : nat) i :
  (i >=? Z.of_nat len) || (i <? 0) = negb (in_range len i).
Proof.
  unfold in_range.
  destruct (Z.geb_spec i (Z.of_nat len)), (Z.ltb_spec i 0),
    (Z.leb_spec 0 i), (Z.ltb_spec i (Z.of_nat len)); simpl; lia.
Qed.
End ArrayFacts.

(** ** Running the handlers *)

Section HandlerFacts.
Implicit Types (nb : notebook) (i j k : Z) (c : cell).

Lemma bind_run {A B : Type} (m : M A) (f : A -> M B) nb :
  (m ≫= f) nb
  = match m nb with
    | (inl e, nb') => (inl e, nb')
    | (inr a, nb') => f a nb'
    end.
Proof. reflexivity. Qed.

Lemma set_cells_set_cells nb (cs cs' : list cell) :
  set_cells (set_cells nb cs) cs' = set_cells nb cs'.
Proof. reflexivity. Qed.

Lemma set_cells_same nb : set_cells nb (cells nb) = nb.
Proof. by destruct nb. Qed.

Lemma check_cell_index_run nb i :
  check_cell_index i nb
  = if in_range (length (cells nb)) i then (inr (), nb)
    else (inl (CellIndexOutOfBounds i), nb).
Proof.
  unfold check_cell_index. rewrite bind_run. simpl.
  rewrite bounds_check. by destruct (in_range _ _).
Qed.

Lemma checked_run {A : Type} (m : M A) nb i :
  (check_cell_index i;; m) nb
  = if in_range (length (cells nb)) i then m nb
    else (inl (CellIndexOutOfBounds i), nb).
Proof.
  rewrite bind_run, check_cell_index_run. by destruct (in_range _ _).
Qed.

Lemma get_cell_run nb i c :
  at_index (cells nb) i = Some c -> get_cell i nb = (inr c, nb).
Proof.
  intros H. unfold get_cell. rewrite bind_run. simpl. by rewrite H.
Qed.

Lemma update_cell_run nb i (f : cell -> cell) :
  0 <= i < Z.of_nat (length (cells nb)) ->
  update_cell i f nb = (inr (), set_cells nb (alter f (Z.to_nat i) (cells nb))).
Proof.
  intros H. apply in_range_spec, at_index_in_range in H as [c Hc].
  unfold update_cell. by rewrite bind_run, (get_cell_run _ _ _ Hc).
Qed.

(** *** The handlers as guarded list transformations *)

Lemma addCell_run nb (ty src : string) index :
  addCell ty src index nb
  = (inr (), set_cells nb
       (let p := clamp (length (cells nb)) (index + 1) in
        take p (cells nb) ++ new_cell ty src :: drop p (cells nb))).
Proof.
  unfold addCell, modify_cells. by rewrite splice_insert.
Qed.

Lemma bulkAddCells_run nb (cellData : list (string * string)) index :
  bulkAddCells cellData index nb
  = (inr (), set_cells nb
       (let p := clamp (length (cells nb)) (index + 1) in
        take p (cells nb) ++ map (λ d, new_cell d.1 d.2) cellData
          ++ drop p (cells nb))).
Proof.
  unfold bulkAddCells, modify_cells. by rewrite splice_insert.
Qed.

Lemma editCell_run nb i (src : string) :
  editCell i src nb
  = if in_range (length (cells nb)) i
    then (inr (), set_cells nb
            (alter (λ c, set_source c (SrcStr src)) (Z.to_nat i) (cells nb)))
    else (inl (CellIndexOutOfBounds i), nb).
Proof.
  unfold editCell. rewrite checked_run.
  destruct (in_range _ _) eqn:Hi; [|done].
  apply in_range_spec in Hi. by rewrite update_cell_run by lia.
Qed.

Lemma deleteCell_run nb i :
  deleteCell i nb
  = if in_range (length (cells nb)) i
    then (inr (), set_cells nb (delete (Z.to_nat i) (cells nb)))
    else (inl (CellIndexOutOfBounds i), nb).
Proof.
  unfold deleteCell. rewrite checked_run.
  destruct (in_range _ _) eqn:Hi; [|done].
  apply in_range_spec in Hi. unfold modify_cells.
  by rewrite splice_delete_one.
Qed.

Lemma changeCellType_run nb i (newType : string) :
  changeCellType i newType nb
  = if in_range (length (cells nb)) i
    then (inr (), set_cells nb
            (alter (λ c,
               let c := mkCell newType (metadata c) (source c)
                               (execution_count c) (outputs c) in
               if is_code newType then reset_execution c
               else delete_execution c) (Z.to_nat i) (cells nb)))
    else (inl (CellIndexOutOfBounds i), nb).
Proof.
  unfold changeCellType. rewrite checked_run.
  destruct (in_range _ _) eqn:Hi; [|done].
  apply in_range_spec in Hi. by rewrite update_cell_run by lia.
Qed.

Lemma editCellMetadata_run nb i (md : gmap string json) :
  editCellMetadata i md nb
  = if in_range (length (cells nb)) i
    then (inr (), set_cells nb
            (alter (λ c,
               mkCell (cell_type c) (Some (spread (default ∅ (metadata c)) md))
                      (source c) (execution_count c) (outputs c))
               (Z.to_nat i) (cells nb)))
    else (inl (CellIndexOutOfBounds i), nb).
Proof.
  unfold editCellMetadata. rewrite checked_run.
  destruct (in_range _ _) eqn:Hi; [|done].
  apply in_range_spec in Hi. by rewrite update_cell_run by lia.
Qed.

Lemma clearCellOutputs_run nb i :
  clearCellOutputs i nb
  = if in_range (length (cells nb)) i
    then (inr (), set_cells nb (alter clear_outputs (Z.to_nat i) (cells nb)))
    else (inl (CellIndexOutOfBounds i), nb).
Proof.
  unfold clearCellOutputs. rewrite checked_run.
  destruct (in_range _ _) eqn:Hi; [|done].
  apply in_range_spec in Hi. by rewrite update_cell_run by lia.
Qed.

Lemma duplicate_loop_run (n : nat) nb k i c :
  0 <= i + 1 + k <= Z.of_nat (length (cells nb)) ->
  duplicate_loop n k i c nb
  = (inr (), set_cells nb
       (take (Z.to_nat (i + 1 + k)) (cells nb)
          ++ replicate n (duplicated c)
          ++ drop (Z.to_nat (i + 1 + k)) (cells nb))).
Proof.
  revert nb k. induction n as [|n IH]; intros nb k Hk; simpl.
  - rewrite take_drop. by rewrite set_cells_same.
  - rewrite bind_run. unfold modify_cells at 1.
    rewrite splice_insert, clamp_in_range by lia.
    rewrite IH.
    2:{ simpl. rewrite length_app, length_take. simpl.
        rewrite length_drop. lia. }
    simpl. rewrite set_cells_set_cells. do 2 f_equal.
    set (p := Z.to_nat (i + 1 + k)).
    replace (Z.to_nat (i + 1 + (k + 1))) with (S p) by lia.
    assert (length (take p (cells nb)) = p) as Hp
      by (rewrite length_take; lia).
    replace (S p) with (length (take p (cells nb)) + 1)%nat by lia.
    rewrite take_app_add, drop_app_add. simpl.
    rewrite take_0, drop_0. by rewrite <- app_assoc.
Qed.

Lemma duplicateCell_run nb i count :
  duplicateCell i count nb
  = match at_index (cells nb) i with
    | Some c =>
        (inr (), set_cells nb
           (take (S (Z.to_nat i)) (cells nb)
              ++ replicate (Z.to_nat count) (duplicated c)
              ++ drop (S (Z.to_nat i)) (cells nb)))
    | None => (inl (CellIndexOutOfBounds i), nb)
    end.
Proof.
  unfold duplicateCell. rewrite checked_run.
  destruct (in_range _ _) eqn:Hi.
  - pose proof Hi as Hr. apply in_range_spec in Hr.
    apply at_index_in_range in Hi as [c Hc]. rewrite Hc.
    rewrite bind_run, (get_cell_run _ _ _ Hc). unfold json_clone.
    rewrite duplicate_loop_run by lia.
    by replace (Z.to_nat (i + 1 + 0)) with (S (Z.to_nat i)) by lia.
  - destruct (at_index _ _) eqn:Hc; [|done].
    assert (in_range (length (cells nb)) i = true); [|congruence].
    apply at_index_in_range. by rewrite Hc.
Qed.

Lemma at_index_None nb i :
  at_index (cells nb) i = None -> in_range (length (cells nb)) i = false.
Proof.
  intros H. destruct (in_range _ _) eqn:Hi; [|done].
  apply at_index_in_range in Hi as [c Hc]. congruence.
Qed.

Lemma at_index_range nb i c :
  at_index (cells nb) i = Some c ->
  in_range (length (cells nb)) i = true
  ∧ 0 <= i ∧ cells nb !! Z.to_nat i = Some c.
Proof.
  intros H. split.
  - apply at_index_in_range. by rewrite H.
  - by apply at_index_Some.
Qed.

Lemma moveCell_run nb i j :
  moveCell i j nb
  = match at_index (cells nb) i with
    | Some c =>
        if in_range (length (cells nb)) j
        then (inr (), set_cells nb
                (let rest := delete (Z.to_nat i) (cells nb) in
                 take (Z.to_nat j) rest ++ c :: drop (Z.to_nat j) rest))
        else (inl IndexOutOfBounds, nb)
    | None => (inl IndexOutOfBounds, nb)
    end.
Proof.
  unfold moveCell. rewrite bind_run. simpl.
  rewrite <- orb_assoc, !bounds_check.
  destruct (at_index _ _) as [c|] eqn:Hc.
  - apply at_index_range in Hc as (Hi & Hi0 & Hc). rewrite Hi. simpl.
    destruct (in_range _ j) eqn:Hj; [|done]. simpl.
    apply in_range_spec in Hi, Hj.
    rewrite (spliced_out_one _ _ c) by done.
    rewrite bind_run. unfold modify_cells. simpl.
    rewrite splice_delete_one by done.
    rewrite splice_insert, clamp_in_range; [done|].
    rewrite length_delete by eauto. lia.
  - apply at_index_None in Hc. by rewrite Hc.
Qed.

Lemma slice_prefix {A : Type} (l : list A) k :
  0 <= k <= Z.of_nat (length l) -> slice l 0 k = take (Z.to_nat k) l.
Proof.
  intros H. unfold slice. rewrite !clamp_in_range by lia.
  simpl. by rewrite Nat.sub_0_r.
Qed.

Lemma slice_suffix {A : Type} (l : list A) k :
  0 <= k <= Z.of_nat (length l) -> slice_from l k = drop (Z.to_nat k) l.
Proof.
  intros H. unfold slice_from. by rewrite clamp_in_range by lia.
Qed.

Lemma insert_after_alter (cs : list cell) (n : nat) c (f : cell -> cell)
    (new : cell) :
  cs !! n = Some c ->
  take (S n) (alter f n cs) ++ [new] ++ drop (S n) (alter f n cs)
  = take n cs ++ f c :: new :: drop (S n) cs.
Proof.
  intros Hc. rewrite drop_alter_lt by lia.
  rewrite (take_S_r _ _ (f c)).
  - rewrite take_alter_ge by lia. by rewrite <- app_assoc.
  - rewrite list_lookup_alter_eq. by rewrite Hc.
Qed.

Lemma splitCell_run nb i k :
  splitCell i k nb
  = match at_index (cells nb) i with
    | Some c =>
        let lines := split_nl (normalize (source c)) in
        if in_range (length lines) k
        then (inr (), set_cells nb
                (take (Z.to_nat i) (cells nb)
                   ++ set_source c
                        (SrcStr (join NL (take (Z.to_nat k) lines)))
                   :: new_cell (cell_type c)
                        (join NL (drop (Z.to_nat k) lines))
                   :: drop (S (Z.to_nat i)) (cells nb)))
        else (inl (LineOutOfBounds k), nb)
    | None => (inl (CellIndexOutOfBounds i), nb)
    end.
Proof.
  unfold splitCell. rewrite checked_run.
  destruct (at_index _ _) as [c|] eqn:Hc.
  - pose proof (get_cell_run _ _ _ Hc) as Hget.
    apply at_index_range in Hc as (Hi & Hi0 & Hc). rewrite Hi.
    rewrite bind_run, Hget. rewrite bounds_check. simpl.
    destruct (in_range _ k) eqn:Hk; [|done]. simpl.
    apply in_range_spec in Hk. apply in_range_spec in Hi.
    rewrite bind_run, update_cell_run by done.
    unfold modify_cells. simpl.
    rewrite slice_prefix, slice_suffix by lia.
    rewrite splice_insert, clamp_in_range.
    2:{ rewrite length_alter. apply lookup_lt_Some in Hc. lia. }
    replace (Z.to_nat (i + 1)) with (S (Z.to_nat i)) by lia.
    by rewrite (insert_after_alter _ _ c).
  - apply at_index_None in Hc. by rewrite Hc.
Qed.

Lemma mergeCells_run nb i :
  mergeCells i nb
  = match at_index (cells nb) i, at_index (cells nb) (i + 1) with
    | Some currentCell, Some nextCell =>
        (inr (), set_cells nb
           (take (Z.to_nat i) (cells nb)
              ++ set_source currentCell
                   (SrcStr (normalize (source currentCell) +:+ NL
                              +:+ normalize (source nextCell)))
              :: drop (S (S (Z.to_nat i))) (cells nb)))
    | _, _ => (inl CannotMerge, nb)
    end.
Proof.
  unfold mergeCells. rewrite bind_run. simpl.
  destruct (at_index _ i) as [c|] eqn:Hc.
  - pose proof (get_cell_run _ _ _ Hc) as Hget.
    apply at_index_range in Hc as (Hi & Hi0 & Hc).
    apply in_range_spec in Hi.
    destruct (at_index _ (i + 1)) as [c'|] eqn:Hc'.
    + pose proof (get_cell_run _ _ _ Hc') as Hget'.
      apply at_index_range in Hc' as (Hi' & _ & Hc').
      apply in_range_spec in Hi'.
      destruct (Z.geb_spec i (Z.of_nat (length (cells nb)) - 1)); [lia|].
      destruct (Z.ltb_spec i 0); [lia|]. simpl.
      rewrite bind_run, Hget, bind_run, Hget', bind_run.
      rewrite update_cell_run by done.
      unfold modify_cells. simpl.
      unfold splice, delete_count. rewrite length_alter.
      rewrite clamp_in_range by lia.
      replace (Z.to_nat (Z.min _ _)) with 1%nat by lia.
      replace (Z.to_nat (i + 1)) with (S (Z.to_nat i)) by lia.
      simpl. rewrite drop_alter_lt by lia.
      rewrite (take_S_r _ _ (set_source c
        (SrcStr (normalize (source c) +:+ NL +:+ normalize (source c'))))).
      * rewrite take_alter_ge by lia. rewrite <- app_assoc. simpl.
        rewrite set_cells_set_cells.
        by replace (Z.to_nat i + 1)%nat with (S (Z.to_nat i)) by lia.
      * rewrite list_lookup_alter_eq. by rewrite Hc.
    + apply at_index_None, in_range_false in Hc'.
      destruct (Z.geb_spec i (Z.of_nat (length (cells nb)) - 1)); [done|lia].
  - apply at_index_None, in_range_false in Hc.
    destruct (Z.geb_spec i (Z.of_nat (length (cells nb)) - 1)),
      (Z.ltb_spec i 0); try done. lia.
Qed.

Lemma editCellOutput_run nb i (outs : list json) :
  editCellOutput i outs nb
  = match at_index (cells nb) i with
    | Some c =>
        if is_code (cell_type c)
        then (inr (), set_cells nb
                (alter (λ c, mkCell (cell_type c) (metadata c) (source c)
                                    (execution_count c) (Some outs))
                       (Z.to_nat i) (cells nb)))
        else (inl (NotACodeCell i), nb)
    | None => (inl (CellIndexOutOfBounds i), nb)
    end.
Proof.
  unfold editCellOutput. rewrite checked_run.
  destruct (at_index _ _) as [c|] eqn:Hc.
  - pose proof (get_cell_run _ _ _ Hc) as Hget.
    apply at_index_range in Hc as (Hi & Hi0 & Hc). rewrite Hi.
    rewrite bind_run, Hget.
    destruct (is_code _); simpl; [|done].
    apply in_range_spec in Hi. by rewrite update_cell_run by done.
  - apply at_index_None in Hc. by rewrite Hc.
Qed.
End HandlerFacts.

(** ** Strings *)

Section StringFacts.
Implicit Types (s q a b : string) (ls : list string).

Lemma sapp_nil_l s : "" +:+ s = s.
Proof. reflexivity. Qed.

Lemma sapp_cons c a s : String c a +:+ s = String c (a +:+ s).
Proof. reflexivity. Qed.

Lemma sapp_assoc a b s : (a +:+ b) +:+ s = a +:+ (b +:+ s).
Proof.
  induction a as [|c a IH]; [done|]. by rewrite !sapp_cons, IH.
Qed.

Lemma sapp_empty_r a : a +:+ "" = a.
Proof.
  induction a as [|c a IH]; [done|]. by rewrite sapp_cons, IH.
Qed.

Lemma split_nl_nonempty s : split_nl s ≠ [].
Proof.
  destruct s as [|c s]; simpl; [done|].
  destruct (Ascii.eqb c nl); [done|]. by destruct (split_nl s).
Qed.

Lemma split_nl_length s : (0 < length (split_nl s))%nat.
Proof.
  pose proof (split_nl_nonempty s). destruct (split_nl s); simpl; [done|lia].
Qed.

Lemma join_cons sep a ls :
  ls ≠ [] -> join sep (a :: ls) = a +:+ sep +:+ join sep ls.
Proof. by destruct ls. Qed.

Lemma join_cons_char sep c a ls :
  join sep (String c a :: ls) = String c (join sep (a :: ls)).
Proof. by destruct ls. Qed.

(** [s.split('\n').join('\n')] is [s]. *)
Lemma join_split_nl s : join NL (split_nl s) = s.
Proof.
  induction s as [|c s IH]; simpl; [done|].
  destruct (Ascii.eqb_spec c nl) as [->|Hc].
  - rewrite join_cons by apply split_nl_nonempty. by rewrite IH.
  - pose proof (split_nl_nonempty s).
    destruct (split_nl s) as [|l ls]; [done|].
    by rewrite join_cons_char, IH.
Qed.

Lemma join_app sep ls ls' :
  ls ≠ [] -> ls' ≠ [] ->
  join sep (ls ++ ls') = join sep ls +:+ sep +:+ join sep ls'.
Proof.
  intros Hls Hls'. induction ls as [|a ls IH]; [done|].
  destruct ls as [|a' ls].
  - simpl. by destruct ls'.
  - change ((a :: a' :: ls) ++ ls') with (a :: ((a' :: ls) ++ ls')).
    rewrite !join_cons by done. rewrite IH by done.
    by rewrite !sapp_assoc.
Qed.

(** Cutting the lines at an inner boundary and rejoining with one line
    feed gives the joined lines back. *)
Lemma join_take_drop ls (k : nat) :
  (0 < k < length ls)%nat ->
  join NL (take k ls) +:+ NL +:+ join NL (drop k ls) = join NL ls.
Proof.
  intros Hk. rewrite <- join_app.
  - by rewrite take_drop.
  - intros H. apply (f_equal length) in H. rewrite length_take in H.
    simpl in H. lia.
  - intros H. apply (f_equal length) in H. rewrite length_drop in H.
    simpl in H. lia.
Qed.
End StringFacts.

(** ** Cells and positions *)

Section CellFacts.
Implicit Types (nb : notebook) (cs : list cell) (c : cell) (n : nat).

Lemma new_cell_source (ty src : string) :
  source (new_cell ty src) = SrcStr src.
Proof. unfold new_cell. by destruct (is_code ty). Qed.

Lemma new_cell_type (ty src : string) : cell_type (new_cell ty src) = ty.
Proof. unfold new_cell. by destruct (is_code ty). Qed.

Lemma set_source_same c (s : string) :
  source c = SrcStr s -> set_source c (SrcStr s) = c.
Proof. destruct c. simpl. by intros ->. Qed.

Lemma take_length_lt {A : Type} (l : list A) n :
  (n <= length l)%nat -> length (take n l) = n.
Proof. rewrite length_take. lia. Qed.

(** Positions in a list of the shape the handlers build. *)
Lemma lookup_after_take cs n (mid rest : list cell) (j : nat) :
  (n <= length cs)%nat ->
  (take n cs ++ mid ++ rest) !! (n + j)%nat = (mid ++ rest) !! j.
Proof.
  intros Hn. rewrite lookup_app_r; rewrite take_length_lt by done; [|lia].
  f_equal. lia.
Qed.

Lemma lookup_before_take cs n (rest : list cell) (j : nat) :
  (j < n)%nat -> (n <= length cs)%nat ->
  (take n cs ++ rest) !! j = cs !! j.
Proof.
  intros Hj Hn. rewrite lookup_app_l by (rewrite take_length_lt; lia).
  by rewrite lookup_take_lt.
Qed.

Lemma take_take_app cs n (rest : list cell) :
  (n <= length cs)%nat -> take n (take n cs ++ rest) = take n cs.
Proof.
  intros Hn. by rewrite take_app_length' by (by rewrite take_length_lt).
Qed.

Lemma drop_take_app cs n (mid rest : list cell) :
  (n <= length cs)%nat ->
  drop (n + length mid) (take n cs ++ mid ++ rest) = rest.
Proof.
  intros Hn. rewrite app_assoc.
  by rewrite drop_app_length' by (rewrite length_app, take_length_lt; lia).
Qed.
End CellFacts.

(** ** Split and merge *)

(** C1, as stated, fails at line 0: splitting the two-line cell of
    [sample_notebook] at line 0 and merging back succeeds, and the merged
    source is the original preceded by a line feed. *)
Lemma split_merge_at_line_zero_differs :
  in_range (length (cells sample_notebook)) 0 = true
  ∧ (line_count <$> at_index (cells sample_notebook) 0) = Some 2%nat
  ∧ (splitCell 0 0 sample_notebook).1 = inr ()
  ∧ (mergeCells 0 (splitCell 0 0 sample_notebook).2).1 = inr ()
  ∧ (source <$> at_index (cells sample_notebook) 0) = Some (SrcStr two_lines)
  ∧ (source <$>
       at_index (cells (mergeCells 0 (splitCell 0 0 sample_notebook).2).2) 0)
    = Some (SrcStr (NL +:+ two_lines))
  ∧ NL +:+ two_lines ≠ two_lines.
Proof. repeat split; try (vm_compute; reflexivity). discriminate. Qed.

(** C1, amended: for a cell at a valid index and a line number [k] with
    [1 <= k < lineCount(source)], [split(i, k)] followed by [merge(i)] both
    succeed and leave at [i] the original cell with its source normalized
    to a single string; every other cell is as before, and when the source
    was already a string the whole document is the original one. *)
Theorem split_then_merge_restores (nb : notebook) (i k : Z) (c : cell) :
  at_index (cells nb) i = Some c ->
  1 <= k < Z.of_nat (line_count c) ->
  ∃ nb1 nb2,
    splitCell i k nb = (inr (), nb1)
    ∧ mergeCells i nb1 = (inr (), nb2)
    ∧ nb2 = set_cells nb
              (<[Z.to_nat i := set_source c (SrcStr (normalize (source c)))]>
                 (cells nb))
    ∧ (∀ s, source c = SrcStr s -> nb2 = nb).
Proof.
  intros Hc Hk. unfold line_count in Hk.
  pose proof Hc as Hc0. apply at_index_range in Hc0 as (Hi & Hi0 & Hn).
  apply in_range_spec in Hi.
  set (n := Z.to_nat i) in *.
  assert (n < length (cells nb))%nat as Hlt by lia.
  rewrite splitCell_run, Hc. simpl.
  assert (in_range (length (split_nl (normalize (source c)))) k = true) as ->
    by (apply in_range_spec; lia).
  eexists. eexists. split; [reflexivity|].
  set (lines := split_nl (normalize (source c))) in *.
  set (first := join NL (take (Z.to_nat k) lines)).
  set (second := join NL (drop (Z.to_nat k) lines)).
  set (cs1 := take _ _ ++ _).
  assert (cs1 !! n = Some (set_source c (SrcStr first))) as H1.
  { unfold cs1. by rewrite list_lookup_middle by (by rewrite take_length_lt by lia). }
  assert (cs1 !! S n = Some (new_cell (cell_type c) second)) as H2.
  { unfold cs1. rewrite cons_middle, app_assoc.
    by rewrite list_lookup_middle
      by (rewrite length_app, take_length_lt by lia; simpl; lia). }
  rewrite mergeCells_run. simpl.
  assert (at_index cs1 i = Some (set_source c (SrcStr first))) as ->
    by (apply at_index_Some; done).
  assert (at_index cs1 (i + 1) = Some (new_cell (cell_type c) second)) as ->.
  { apply at_index_Some. split; [lia|].
    by replace (Z.to_nat (i + 1)) with (S n) by lia. }
  rewrite new_cell_source. simpl. fold n.
  assert (first +:+ NL +:+ second = normalize (source c)) as ->.
  { unfold first, second. rewrite join_take_drop by lia.
    apply join_split_nl. }
  assert (take n cs1 = take n (cells nb)) as ->
    by (unfold cs1; apply take_take_app; lia).
  assert (drop (S (S n)) cs1 = drop (S n) (cells nb)) as ->.
  { unfold cs1.
    change (?x :: ?y :: ?l) with ([x; y] ++ l).
    replace (S (S n)) with (n + length [set_source c (SrcStr first);
      new_cell (cell_type c) second])%nat by (simpl; lia).
    apply drop_take_app. lia. }
  rewrite set_cells_set_cells.
  assert (set_source (set_source c (SrcStr first))
            (SrcStr (normalize (source c)))
          = set_source c (SrcStr (normalize (source c)))) as -> by done.
  rewrite <- insert_take_drop by done.
  split; [reflexivity|]. split; [reflexivity|].
  intros s Hs. rewrite Hs. simpl. rewrite set_source_same by done.
  rewrite list_insert_id by done. apply set_cells_same.
Qed.

Lemma split_then_merge_restores_witness :
  ∃ nb1 nb2,
    splitCell 0 1 sample_notebook = (inr (), nb1)
    ∧ mergeCells 0 nb1 = (inr (), nb2)
    ∧ nb2 = set_cells sample_notebook
              (<[Z.to_nat 0 :=
                   set_source (code_cell two_lines (Some 3) [JStr "out"])
                     (SrcStr (normalize (source
                        (code_cell two_lines (Some 3) [JStr "out"]))))]>
                 (cells sample_notebook))
    ∧ (∀ s, source (code_cell two_lines (Some 3) [JStr "out"]) = SrcStr s ->
            nb2 = sample_notebook).
Proof.
  apply (split_then_merge_restores sample_notebook 0 1
           (code_cell two_lines (Some 3) [JStr "out"])).
  - reflexivity.
  - vm_compute. split; [discriminate | reflexivity].
Defined.

(** ** Insert *)

(** Outside [-1 <= index < len] the position is not [index + 1]: on the
    empty notebook [insert(3, ...)] puts the cell at position 0 and nothing
    at position 4; on a two-cell notebook [insert(-3, ...)] puts it at
    position 0, while [index + 1] is [-2]. *)
Lemma addCell_position_clamped :
  addCell "code" "x" 3 empty_notebook
  = (inr (), set_cells empty_notebook [new_cell "code" "x"])
  ∧ at_index (cells (addCell "code" "x" 3 empty_notebook).2) (3 + 1) = None
  ∧ cells (addCell "raw" "x" (-3) sample_notebook).2
    = new_cell "raw" "x" :: cells sample_notebook
  ∧ at_index (cells (addCell "raw" "x" (-3) sample_notebook).2) (-3 + 1)
    = None.
Proof. repeat split; vm_compute; reflexivity. Qed.

(** What [addCell] does with the index it is given, [splice] clamping
    the start: it never fails; it places the new cell at a position [p] of
    the cell sequence, keeps every pre-existing cell, in order, around it,
    and adds nothing else.  For [-1 <= index < len] the position is
    [index + 1]; for [index >= len] it is [len]; for [index < -1] it is
    [max (len + index + 1) 0]. *)
Theorem addCell_position (nb : notebook) (ty src : string) (index : Z) :
  let len := length (cells nb) in
  ∃ (p : nat) (nb' : notebook),
    addCell ty src index nb = (inr (), nb')
    ∧ (p <= len)%nat
    ∧ cells nb' = take p (cells nb) ++ new_cell ty src :: drop p (cells nb)
    ∧ cells nb' !! p = Some (new_cell ty src)
    ∧ length (cells nb') = S len
    ∧ (∀ j : nat, (j < p)%nat -> cells nb' !! j = cells nb !! j)
    ∧ (∀ j : nat, (p <= j)%nat -> cells nb' !! S j = cells nb !! j)
    ∧ (-1 <= index < Z.of_nat len -> Z.of_nat p = index + 1)
    ∧ (Z.of_nat len <= index -> p = len)
    ∧ (index < -1 -> Z.of_nat p = Z.max (Z.of_nat len + index + 1) 0).
Proof.
  intros len. exists (clamp len (index + 1)). eexists.
  rewrite addCell_run. split; [reflexivity|]. simpl. fold len.
  pose proof (clamp_le len (index + 1)) as Hp.
  set (p := clamp len (index + 1)) in *.
  assert (length (take p (cells nb)) = p) as Htake
    by (apply take_length_lt; done).
  repeat split.
  - done.
  - by rewrite list_lookup_middle.
  - rewrite length_app, Htake. simpl. rewrite length_drop. fold len. lia.
  - intros j Hj. by apply lookup_before_take.
  - intros j Hj. rewrite lookup_app_r by lia. rewrite Htake.
    replace (S j - p)%nat with (S (j - p)) by lia. simpl.
    rewrite lookup_drop. f_equal. lia.
  - intros H. unfold p. rewrite clamp_in_range by lia. lia.
  - intros H. unfold p. apply clamp_above. lia.
  - intros H. unfold p. rewrite clamp_below by lia. lia.
Qed.

(** C2, at a failing input: the claim wants the new cell at position
    [index + 1] for every index, and so does the handler's own answer.  On
    the empty notebook [insert(3, 'code', 'x')] succeeds and answers "Added
    code cell at index 4", while the cell it added is at position 0 and
    position 4 holds nothing; the sibling handlers given the same index
    raise the out-of-bounds error. *)
Lemma addCell_answers_index_it_does_not_use :
  addCell "code" "x" 3 empty_notebook
  = (inr (), set_cells empty_notebook [new_cell "code" "x"])
  ∧ addCell_response "code" 3 = Some "Added code cell at index 4"
  ∧ at_index (cells (addCell "code" "x" 3 empty_notebook).2) 4 = None
  ∧ at_index (cells (addCell "code" "x" 3 empty_notebook).2) 0
    = Some (new_cell "code" "x")
  ∧ editCell 3 "y" empty_notebook
    = (inl (CellIndexOutOfBounds 3), empty_notebook)
  ∧ deleteCell 3 empty_notebook
    = (inl (CellIndexOutOfBounds 3), empty_notebook).
Proof. repeat split; vm_compute; reflexivity. Qed.

(** ** Merge *)

(** C6: [merge(index)] succeeds exactly when [0 <= index < len - 1]; it
    then replaces the cell at [index] by the same cell (type, metadata,
    execution count and outputs untouched) whose source is the current
    normalized source, one line feed, and the next normalized source, and
    drops the next cell, so the count decreases by one.  Otherwise it
    raises the "no next cell" error and changes nothing. *)
Theorem mergeCells_spec (nb : notebook) (i : Z) :
  let len := Z.of_nat (length (cells nb)) in
  let n := Z.to_nat i in
  (0 <= i < len - 1
   ∧ ∃ current next merged nb',
       cells nb !! n = Some current
       ∧ cells nb !! S n = Some next
       ∧ mergeCells i nb = (inr (), nb')
       ∧ cells nb' = take n (cells nb) ++ merged :: drop (S (S n)) (cells nb)
       ∧ cells nb' !! n = Some merged
       ∧ source merged
         = SrcStr (normalize (source current) +:+ NL
                     +:+ normalize (source next))
       ∧ cell_type merged = cell_type current
       ∧ metadata merged = metadata current
       ∧ execution_count merged = execution_count current
       ∧ outputs merged = outputs current
       ∧ Z.of_nat (length (cells nb')) = len - 1
       ∧ nb_metadata nb' = nb_metadata nb)
  ∨ (¬ (0 <= i < len - 1)
     ∧ mergeCells i nb = (inl CannotMerge, nb)
     ∧ error_message CannotMerge
       = Some "Cannot merge: cell index out of bounds or no next cell").
Proof.
  intros len n. rewrite mergeCells_run.
  destruct (at_index (cells nb) i) as [c|] eqn:Hc.
  - apply at_index_range in Hc as (Hi & Hi0 & Hc). apply in_range_spec in Hi.
    destruct (at_index (cells nb) (i + 1)) as [c'|] eqn:Hc'.
    + apply at_index_range in Hc' as (Hi' & _ & Hc').
      apply in_range_spec in Hi'.
      replace (Z.to_nat (i + 1)) with (S n) in Hc' by lia.
      left. split; [lia|].
      exists c, c'. eexists. eexists.
      do 3 (split; [done|]). simpl. fold n.
      assert (length (take n (cells nb)) = n) as Htake
        by (apply take_length_lt; lia).
      repeat split.
      * by rewrite list_lookup_middle.
      * rewrite length_app, Htake. simpl. rewrite length_drop. lia.
    + right. apply at_index_None, in_range_false in Hc'.
      split; [lia|]. by split.
  - right. apply at_index_None, in_range_false in Hc.
    split; [lia|]. by split.
Qed.

(** The scenario of the specification: on a one-cell notebook [merge(0)]
    fails with the "no next cell" condition. *)
Example merge_single_cell :
  mergeCells 0 (mkNotebook [new_cell "code" "x"] ∅ 4 4)
  = (inl CannotMerge, mkNotebook [new_cell "code" "x"] ∅ 4 4).
Proof. reflexivity. Qed.

(** ** Move *)

(** C8: for [from] and [to] both in [[0, len)], [move(from, to)] succeeds;
    its result is the sequence without the cell at [from], with that cell
    put back at position [to] of the shortened sequence; the count and the
    multiset of cells are preserved, and [move(i, i)] gives the document
    back unchanged. *)
Theorem moveCell_spec (nb : notebook) (fromIndex toIndex : Z) :
  0 <= fromIndex < Z.of_nat (length (cells nb)) ->
  0 <= toIndex < Z.of_nat (length (cells nb)) ->
  ∃ (c : cell) (nb' : notebook),
    cells nb !! Z.to_nat fromIndex = Some c
    ∧ moveCell fromIndex toIndex nb = (inr (), nb')
    ∧ cells nb'
      = (let shortened := delete (Z.to_nat fromIndex) (cells nb) in
         take (Z.to_nat toIndex) shortened
           ++ c :: drop (Z.to_nat toIndex) shortened)
    ∧ cells nb' !! Z.to_nat toIndex = Some c
    ∧ length (cells nb') = length (cells nb)
    ∧ cells nb' ≡ₚ cells nb
    ∧ nb_metadata nb' = nb_metadata nb
    ∧ (fromIndex = toIndex -> nb' = nb).
Proof.
  intros Hi Hj.
  destruct (lookup_lt_is_Some_2 (cells nb) (Z.to_nat fromIndex)) as [c Hc];
    [lia|].
  exists c. eexists. split; [done|].
  rewrite moveCell_run.
  assert (at_index (cells nb) fromIndex = Some c) as ->
    by (apply at_index_Some; split; [lia|done]).
  assert (in_range (length (cells nb)) toIndex = true) as ->
    by (by apply in_range_spec).
  split; [reflexivity|]. simpl.
  set (n := Z.to_nat fromIndex) in *. set (m := Z.to_nat toIndex).
  set (shortened := delete n (cells nb)).
  assert (length shortened = (length (cells nb) - 1)%nat) as Hlen
    by (apply length_delete; eauto).
  assert (length (take m shortened) = m) as Htake
    by (apply take_length_lt; lia).
  repeat split.
  - by rewrite list_lookup_middle.
  - rewrite length_app, Htake. simpl. rewrite length_drop. lia.
  - rewrite <- Permutation_middle, take_drop.
    symmetry. by apply delete_Permutation.
  - intros Heq. assert (m = n) as -> by (unfold m, n; congruence).
    unfold shortened. rewrite delete_take_drop.
    rewrite take_take_app, drop_app_length' by (rewrite ?take_length_lt; lia).
    rewrite take_drop_middle by done. apply set_cells_same.
Qed.

Lemma moveCell_spec_witness :
  ∃ (c : cell) (nb' : notebook),
    cells sample_notebook !! Z.to_nat 0 = Some c
    ∧ moveCell 0 1 sample_notebook = (inr (), nb')
    ∧ cells nb'
      = (let shortened := delete (Z.to_nat 0) (cells sample_notebook) in
         take (Z.to_nat 1) shortened ++ c :: drop (Z.to_nat 1) shortened)
    ∧ cells nb' !! Z.to_nat 1 = Some c
    ∧ length (cells nb') = length (cells sample_notebook)
    ∧ cells nb' ≡ₚ cells sample_notebook
    ∧ nb_metadata nb' = nb_metadata sample_notebook
    ∧ (0 = 1 -> nb' = sample_notebook).
Proof.
  apply (moveCell_spec sample_notebook 0 1); simpl; lia.
Defined.

(** ** Duplicate *)

Lemma duplicated_fields (c : cell) :
  source (duplicated c) = source c
  ∧ cell_type (duplicated c) = cell_type c
  ∧ metadata (duplicated c) = metadata c
  ∧ (is_code (cell_type c) = true ->
     outputs (duplicated c) = Some []
     ∧ execution_count (duplicated c) = Some None)
  ∧ (is_code (cell_type c) = false -> duplicated c = c).
Proof.
  unfold duplicated, json_clone. destruct (is_code (cell_type c)); done.
Qed.

(** C9: for a valid index [i] and a count [n >= 1], [duplicate(i, n)]
    succeeds and inserts [n] copies at positions [i+1 .. i+n], the cells
    before and after keeping their order, so the count grows by [n].
    Every copy has the original's source, type and metadata; a copy of a
    code cell has [outputs = []] and [execution_count = null] whatever the
    original held; and the copies are independent values: replacing the
    source of one of them afterwards leaves every other position of the
    document, the original and the other copies included, as it was. *)
Theorem duplicateCell_spec (nb : notebook) (i count : Z) :
  0 <= i < Z.of_nat (length (cells nb)) ->
  1 <= count ->
  ∃ (c : cell) (nb' : notebook),
    at_index (cells nb) i = Some c
    ∧ duplicateCell i count nb = (inr (), nb')
    ∧ cells nb'
      = take (S (Z.to_nat i)) (cells nb)
          ++ replicate (Z.to_nat count) (duplicated c)
          ++ drop (S (Z.to_nat i)) (cells nb)
    ∧ Z.of_nat (length (cells nb')) = Z.of_nat (length (cells nb)) + count
    ∧ at_index (cells nb') i = Some c
    ∧ (∀ k, i + 1 <= k <= i + count ->
            at_index (cells nb') k = Some (duplicated c))
    ∧ source (duplicated c) = source c
    ∧ cell_type (duplicated c) = cell_type c
    ∧ metadata (duplicated c) = metadata c
    ∧ (is_code (cell_type c) = true ->
       outputs (duplicated c) = Some []
       ∧ execution_count (duplicated c) = Some None)
    ∧ (∀ k (src : string) j,
         i + 1 <= k <= i + count -> j ≠ k ->
         ∃ nb'', editCell k src nb' = (inr (), nb'')
                 ∧ at_index (cells nb'') j = at_index (cells nb') j
                 ∧ (source <$> at_index (cells nb'') k) = Some (SrcStr src)).
Proof.
  intros Hi Hcount.
  destruct (lookup_lt_is_Some_2 (cells nb) (Z.to_nat i)) as [c Hc]; [lia|].
  assert (at_index (cells nb) i = Some c) as Hat
    by (apply at_index_Some; split; [lia|done]).
  exists c. eexists. split; [done|].
  rewrite duplicateCell_run, Hat. split; [reflexivity|]. simpl.
  set (n := Z.to_nat i) in *. set (m := Z.to_nat count).
  set (cs' := take (S n) (cells nb) ++ _).
  assert (length (take (S n) (cells nb)) = S n) as Htake
    by (apply take_length_lt; lia).
  assert (Z.of_nat (length cs') = Z.of_nat (length (cells nb)) + count) as Hlen.
  { unfold cs'. rewrite !length_app, Htake, length_replicate, length_drop. lia. }
  assert (∀ k, i + 1 <= k <= i + count ->
            at_index cs' k = Some (duplicated c)) as Hcopies.
  { intros k Hk. apply at_index_Some. split; [lia|].
    unfold cs'. rewrite lookup_app_r by lia. rewrite Htake.
    rewrite lookup_app_l by (rewrite length_replicate; lia).
    apply lookup_replicate_2. lia. }
  split; [reflexivity|]. split; [done|]. split.
  { apply at_index_Some. split; [lia|]. unfold cs'.
    rewrite lookup_app_l by lia. by rewrite lookup_take_lt by lia. }
  split; [done|].
  destruct (duplicated_fields c) as (Hs & Ht & Hm & Hcode & _).
  do 4 (split; [done|]).
  intros k src j Hk Hj. rewrite editCell_run.
  change (cells (set_cells nb cs')) with cs'.
  assert (in_range (length cs') k = true) as ->
    by (apply in_range_spec; simpl; lia).
  eexists. split; [reflexivity|]. simpl. split.
  - unfold at_index. destruct (Z.ltb_spec j 0); [done|].
    apply list_lookup_alter_ne. lia.
  - pose proof (Hcopies k Hk) as Hck. apply at_index_Some in Hck as [Hk0 Hck].
    unfold at_index. destruct (Z.ltb_spec k 0); [lia|].
    by rewrite list_lookup_alter_eq, Hck.
Qed.

Lemma duplicateCell_spec_witness :
  ∃ (c : cell) (nb' : notebook),
    at_index (cells sample_notebook) 0 = Some c
    ∧ duplicateCell 0 2 sample_notebook = (inr (), nb')
    ∧ cells nb'
      = take (S (Z.to_nat 0)) (cells sample_notebook)
          ++ replicate (Z.to_nat 2) (duplicated c)
          ++ drop (S (Z.to_nat 0)) (cells sample_notebook)
    ∧ Z.of_nat (length (cells nb'))
      = Z.of_nat (length (cells sample_notebook)) + 2
    ∧ at_index (cells nb') 0 = Some c
    ∧ (∀ k, 0 + 1 <= k <= 0 + 2 ->
            at_index (cells nb') k = Some (duplicated c))
    ∧ source (duplicated c) = source c
    ∧ cell_type (duplicated c) = cell_type c
    ∧ metadata (duplicated c) = metadata c
    ∧ (is_code (cell_type c) = true ->
       outputs (duplicated c) = Some []
       ∧ execution_count (duplicated c) = Some None)
    ∧ (∀ k (src : string) j,
         0 + 1 <= k <= 0 + 2 -> j ≠ k ->
         ∃ nb'', editCell k src nb' = (inr (), nb'')
                 ∧ at_index (cells nb'') j = at_index (cells nb') j
                 ∧ (source <$> at_index (cells nb'') k) = Some (SrcStr src)).
Proof.
  apply (duplicateCell_spec sample_notebook 0 2); simpl; lia.
Defined.

(** The copies of an executed code cell come out reset. *)
Example duplicate_executed_cell :
  cells (duplicateCell 0 2 sample_notebook).2
  = [code_cell two_lines (Some 3) [JStr "out"];
     code_cell two_lines None []; code_cell two_lines None [];
     new_cell "markdown" "# Title"].
Proof. reflexivity. Qed.

(** C10: through the dispatcher, [duplicate] with [count = 0] on a valid
    index does not fail and does change the document: [args.count || 1]
    turns the count into 1, and exactly one copy is inserted after the
    original. *)
Theorem duplicate_count_zero (nb : notebook) (i : Z) :
  0 <= i < Z.of_nat (length (cells nb)) ->
  ∃ (c : cell) (nb' : notebook),
    at_index (cells nb) i = Some c
    ∧ call_tool (notebook_duplicate_cell i (Some 0)) nb = (None, nb')
    ∧ cells nb'
      = take (S (Z.to_nat i)) (cells nb)
          ++ duplicated c :: drop (S (Z.to_nat i)) (cells nb)
    ∧ length (cells nb') = S (length (cells nb))
    ∧ at_index (cells nb') (i + 1) = Some (duplicated c)
    ∧ nb' ≠ nb
    ∧ call_tool (notebook_duplicate_cell i (Some 0)) nb
      = call_tool (notebook_duplicate_cell i None) nb.
Proof.
  intros Hi.
  destruct (lookup_lt_is_Some_2 (cells nb) (Z.to_nat i)) as [c Hc]; [lia|].
  assert (at_index (cells nb) i = Some c) as Hat
    by (apply at_index_Some; split; [lia|done]).
  exists c. eexists. split; [done|].
  unfold call_tool. simpl. rewrite duplicateCell_run, Hat.
  change (Z.to_nat 1) with 1%nat. split; [reflexivity|]. simpl.
  set (n := Z.to_nat i) in *.
  assert (length (take (S n) (cells nb)) = S n) as Htake
    by (apply take_length_lt; lia).
  assert (length (take (S n) (cells nb) ++ duplicated c
                    :: drop (S n) (cells nb))
          = S (length (cells nb))) as Hlen.
  { rewrite length_app, Htake. simpl. rewrite length_drop. lia. }
  split; [done|]. split; [done|]. split.
  { apply at_index_Some. split; [lia|].
    apply list_lookup_middle. rewrite Htake. lia. }
  split; [|done].
  intros Heq. apply (f_equal (λ x, length (cells x))) in Heq.
  simpl in Heq. rewrite Hlen in Heq. lia.
Qed.

Lemma duplicate_count_zero_witness :
  ∃ (c : cell) (nb' : notebook),
    at_index (cells sample_notebook) 1 = Some c
    ∧ call_tool (notebook_duplicate_cell 1 (Some 0)) sample_notebook
      = (None, nb')
    ∧ cells nb'
      = take (S (Z.to_nat 1)) (cells sample_notebook)
          ++ duplicated c :: drop (S (Z.to_nat 1)) (cells sample_notebook)
    ∧ length (cells nb') = S (length (cells sample_notebook))
    ∧ at_index (cells nb') (1 + 1) = Some (duplicated c)
    ∧ nb' ≠ sample_notebook
    ∧ call_tool (notebook_duplicate_cell 1 (Some 0)) sample_notebook
      = call_tool (notebook_duplicate_cell 1 None) sample_notebook.
Proof.
  apply (duplicate_count_zero sample_notebook 1); simpl; lia.
Defined.

(** ** Failed operations *)

Section Failure.
Implicit Types (nb : notebook) (req : request) (i : Z).

Lemma at_index_out_of_range nb i :
  in_range (length (cells nb)) i = false -> at_index (cells nb) i = None.
Proof.
  intros H. destruct (at_index _ _) as [c|] eqn:Hc; [|done].
  apply at_index_range in Hc as [Hc _]. congruence.
Qed.

Lemma merge_guard nb i :
  in_range (length (cells nb) - 1) i
  = match at_index (cells nb) i, at_index (cells nb) (i + 1) with
    | Some _, Some _ => true
    | _, _ => false
    end.
Proof.
  destruct (at_index _ i) as [c|] eqn:Hc.
  - apply at_index_range in Hc as (Hi & _ & _). apply in_range_spec in Hi.
    destruct (at_index _ (i + 1)) as [c'|] eqn:Hc'.
    + apply at_index_range in Hc' as (Hi' & _ & _).
      apply in_range_spec in Hi'. apply in_range_spec. lia.
    + apply at_index_None, in_range_false in Hc'.
      apply in_range_false. lia.
  - apply at_index_None, in_range_false in Hc. apply in_range_false. lia.
Qed.

(** Every handler either meets its precondition and returns, or misses
    it and raises with the notebook object untouched. *)
Lemma handle_cases req nb :
  (precondition req nb = true ∧ ∃ nb', handle req nb = (inr (), nb'))
  ∨ (precondition req nb = false ∧ ∃ e, handle req nb = (inl e, nb)).
Proof.
  destruct req; simpl.
  - left. rewrite addCell_run. eauto.
  - rewrite editCell_run. destruct (in_range _ _); eauto.
  - rewrite deleteCell_run. destruct (in_range _ _); eauto.
  - rewrite changeCellType_run. destruct (in_range _ _); eauto.
  - rewrite duplicateCell_run.
    destruct (in_range _ _) eqn:Hi.
    + apply at_index_in_range in Hi as [c ->]. eauto.
    + rewrite at_index_out_of_range by done. eauto.
  - left. unfold editMetadata, modify_metadata. eauto.
  - rewrite editCellMetadata_run. destruct (in_range _ _); eauto.
  - rewrite clearCellOutputs_run. destruct (in_range _ _); eauto.
  - left. unfold clearAllOutputs, modify_cells. eauto.
  - rewrite moveCell_run.
    destruct (in_range _ from_index) eqn:Hi.
    + apply at_index_in_range in Hi as [c ->]. simpl.
      destruct (in_range _ to_index); eauto.
    + rewrite at_index_out_of_range by done. eauto.
  - rewrite splitCell_run. unfold line_count.
    destruct (at_index _ _) as [c|]; simpl; [|eauto].
    destruct (in_range _ _); eauto.
  - rewrite mergeCells_run, merge_guard.
    destruct (at_index _ cell_index0) as [c|]; [|eauto].
    destruct (at_index _ (cell_index0 + 1)) as [c'|]; eauto.
  - rewrite editCellOutput_run.
    destruct (at_index _ _) as [c|]; simpl; [|eauto].
    destruct (is_code _); eauto.
  - left. rewrite bulkAddCells_run. eauto.
Qed.

Lemma handle_fails req nb :
  precondition req nb = false -> ∃ e, handle req nb = (inl e, nb).
Proof.
  intros H. destruct (handle_cases req nb) as [[H' _]|[_ ?]]; [|done].
  congruence.
Qed.

(** Whatever a handler raises, the notebook object it was given is as
    received at the [throw]. *)
Lemma handle_failure_state req nb e nb' :
  handle req nb = (inl e, nb') -> nb' = nb.
Proof.
  intros H. destruct (handle_cases req nb) as [[_ [? H']]|[_ [? H']]];
    congruence.
Qed.

Lemma handle_succeeds_iff req nb :
  precondition req nb = true <-> ∃ nb', handle req nb = (inr (), nb').
Proof.
  destruct (handle_cases req nb) as [[Hp H']|[Hp [? H']]].
  - done.
  - split; [congruence|]. intros [? ?]. congruence.
Qed.
End Failure.

(** C3: when the arguments of a mutation operation miss its precondition
    (an index out of bounds, a line number out of bounds, no next cell, a
    target that is not a code cell), the operation raises, the notebook
    object is as received at that point, and the persisted document the
    dispatcher leaves behind is the one it read. *)
Theorem failed_operation_leaves_document (req : request) (nb : notebook) :
  precondition req nb = false ->
  ∃ e, handle req nb = (inl e, nb) ∧ call_tool req nb = (Some e, nb).
Proof.
  intros H. destruct (handle_fails req nb H) as [e He].
  exists e. split; [done|]. unfold call_tool. by rewrite He.
Qed.

Lemma failed_operation_leaves_document_witness :
  ∃ e, handle (notebook_split_cell 0 2) sample_notebook
       = (inl e, sample_notebook)
       ∧ call_tool (notebook_split_cell 0 2) sample_notebook
         = (Some e, sample_notebook).
Proof.
  apply (failed_operation_leaves_document
           (notebook_split_cell 0 2) sample_notebook).
  reflexivity.
Defined.

(** Each named failure, on the sample notebook. *)
Example failures_by_kind :
  handle (notebook_delete_cell 2) sample_notebook
  = (inl (CellIndexOutOfBounds 2), sample_notebook)
  ∧ handle (notebook_move_cell 0 (-1)) sample_notebook
    = (inl IndexOutOfBounds, sample_notebook)
  ∧ handle (notebook_split_cell 0 2) sample_notebook
    = (inl (LineOutOfBounds 2), sample_notebook)
  ∧ handle (notebook_merge_cells 1) sample_notebook
    = (inl CannotMerge, sample_notebook)
  ∧ handle (notebook_edit_cell_output 1 []) sample_notebook
    = (inl (NotACodeCell 1), sample_notebook).
Proof. repeat split. Qed.

(** ** The cell invariant *)

Section Invariant.
Implicit Types (nb : notebook) (cs : list cell) (c : cell).

Lemma new_cell_wf (ty src : string) : cell_wf (new_cell ty src).
Proof.
  unfold cell_wf, new_cell. destruct (is_code ty) eqn:Hty; simpl;
    rewrite Hty; eauto.
Qed.

Lemma set_source_wf c (s : source_t) : cell_wf c -> cell_wf (set_source c s).
Proof. done. Qed.

Lemma retyped_wf c (newType : string) :
  cell_wf
    (let c := mkCell newType (metadata c) (source c)
                     (execution_count c) (outputs c) in
     if is_code newType then reset_execution c else delete_execution c).
Proof.
  unfold cell_wf. simpl. destruct (is_code newType) eqn:Hty; simpl;
    rewrite Hty; eauto.
Qed.

Lemma duplicated_wf c : cell_wf c -> cell_wf (duplicated c).
Proof.
  unfold cell_wf, duplicated, json_clone.
  destruct (is_code (cell_type c)) eqn:Hty; simpl; rewrite Hty; eauto.
Qed.

Lemma clear_outputs_wf c : cell_wf c -> cell_wf (clear_outputs c).
Proof.
  unfold cell_wf, clear_outputs.
  destruct (is_code (cell_type c)) eqn:Hty; simpl; rewrite Hty; eauto.
Qed.

Lemma with_outputs_wf c (outs : list json) :
  is_code (cell_type c) = true -> cell_wf c ->
  cell_wf (mkCell (cell_type c) (metadata c) (source c)
                  (execution_count c) (Some outs)).
Proof.
  unfold cell_wf. simpl. intros ->. intros [? _]. eauto.
Qed.

Lemma insert_block_wf cs (block : list cell) (p : nat) :
  Forall cell_wf cs -> Forall cell_wf block ->
  Forall cell_wf (take p cs ++ block ++ drop p cs).
Proof.
  intros Hcs Hblock. rewrite !Forall_app.
  auto using Forall_take, Forall_drop.
Qed.

Lemma alter_wf cs (f : cell -> cell) (n : nat) :
  Forall cell_wf cs ->
  (∀ c, cs !! n = Some c -> cell_wf c -> cell_wf (f c)) ->
  Forall cell_wf (alter f n cs).
Proof.
  intros Hcs Hf. by apply Forall_alter.
Qed.

Lemma lookup_wf cs (n : nat) c :
  Forall cell_wf cs -> cs !! n = Some c -> cell_wf c.
Proof. intros Hcs Hc. by apply (Forall_lookup_1 _ _ _ _ Hcs Hc). Qed.

(** A handler that returns keeps the invariant. *)
Lemma handle_keeps_wf req nb nb' :
  notebook_wf nb -> handle req nb = (inr (), nb') -> notebook_wf nb'.
Proof.
  unfold notebook_wf. intros Hwf. destruct req; simpl.
  - rewrite addCell_run. intros [= <-]. simpl.
    apply (insert_block_wf _ [_]); [done|].
    apply Forall_singleton, new_cell_wf.
  - rewrite editCell_run. destruct (in_range _ _); intros [= <-]. simpl.
    apply alter_wf; [done|]. intros c _. apply set_source_wf.
  - rewrite deleteCell_run. destruct (in_range _ _); intros [= <-]. simpl.
    by apply Forall_delete.
  - rewrite changeCellType_run. destruct (in_range _ _); intros [= <-].
    simpl. apply alter_wf; [done|]. intros c _ _. apply retyped_wf.
  - rewrite duplicateCell_run.
    destruct (at_index _ _) as [c|] eqn:Hc; intros [= <-]. simpl.
    apply at_index_Some in Hc as [_ Hc].
    apply insert_block_wf; [done|].
    apply Forall_replicate, duplicated_wf. by eapply lookup_wf.
  - unfold editMetadata, modify_metadata. by intros [= <-].
  - rewrite editCellMetadata_run. destruct (in_range _ _); intros [= <-].
    simpl. apply alter_wf; [done|]. by intros c _.
  - rewrite clearCellOutputs_run. destruct (in_range _ _); intros [= <-].
    simpl. apply alter_wf; [done|]. intros c _. apply clear_outputs_wf.
  - unfold clearAllOutputs, modify_cells. intros [= <-]. simpl.
    apply Forall_fmap. eapply Forall_impl; [done|].
    intros c. apply clear_outputs_wf.
  - rewrite moveCell_run.
    destruct (at_index _ _) as [c|] eqn:Hc; [|done].
    destruct (in_range _ _); intros [= <-]. simpl.
    apply at_index_Some in Hc as [_ Hc].
    apply (insert_block_wf _ [_]); [by apply Forall_delete|].
    apply Forall_singleton. by eapply lookup_wf.
  - rewrite splitCell_run.
    destruct (at_index _ _) as [c|] eqn:Hc; [|done]. simpl.
    destruct (in_range _ _); intros [= <-]. simpl.
    apply at_index_Some in Hc as [_ Hc].
    rewrite Forall_app, !Forall_cons.
    split; [by apply Forall_take|].
    split; [apply set_source_wf; by eapply lookup_wf|].
    split; [apply new_cell_wf|by apply Forall_drop].
  - rewrite mergeCells_run.
    destruct (at_index _ cell_index0) as [c|] eqn:Hc; [|done].
    destruct (at_index _ (cell_index0 + 1)) as [c'|]; intros [= <-]. simpl.
    apply at_index_Some in Hc as [_ Hc].
    rewrite Forall_app, Forall_cons.
    split; [by apply Forall_take|].
    split; [apply set_source_wf; by eapply lookup_wf|by apply Forall_drop].
  - rewrite editCellOutput_run.
    destruct (at_index _ _) as [c|] eqn:Hc; [|done].
    destruct (is_code _) eqn:Hty; intros [= <-]. simpl.
    apply at_index_Some in Hc as [_ Hc].
    apply alter_wf; [done|]. intros c0 Hc0. rewrite Hc in Hc0.
    injection Hc0 as <-. by apply with_outputs_wf.
  - rewrite bulkAddCells_run. intros [= <-]. simpl.
    apply insert_block_wf; [done|].
    apply Forall_fmap, Forall_true. intros d. apply new_cell_wf.
Qed.
End Invariant.

(** C7: on a document whose code cells all carry [execution_count] and
    [outputs] and whose other cells carry neither, every mutation
    operation applied with arguments meeting its precondition returns a
    document with the same property. *)
Theorem mutation_keeps_cell_invariant (req : request) (nb : notebook) :
  notebook_wf nb ->
  precondition req nb = true ->
  ∃ nb', handle req nb = (inr (), nb')
         ∧ call_tool req nb = (None, nb')
         ∧ notebook_wf nb'.
Proof.
  intros Hwf Hpre. apply handle_succeeds_iff in Hpre as [nb' Hrun].
  exists nb'. split; [done|]. split.
  - unfold call_tool. by rewrite Hrun.
  - by apply (handle_keeps_wf req nb).
Qed.

Lemma mutation_keeps_cell_invariant_witness :
  ∃ nb', handle (notebook_change_cell_type 0 "markdown") sample_notebook
         = (inr (), nb')
         ∧ call_tool (notebook_change_cell_type 0 "markdown") sample_notebook
           = (None, nb')
         ∧ notebook_wf nb'.
Proof.
  apply (mutation_keeps_cell_invariant
           (notebook_change_cell_type 0 "markdown") sample_notebook).
  - unfold notebook_wf, cell_wf. simpl.
    repeat constructor; eexists; reflexivity.
  - reflexivity.
Defined.

(** ** Search *)

Section SearchFacts.
Implicit Types (s q a b : string) (ls : list string).

Lemma startsWith_spec s q :
  startsWith s q = true <-> ∃ b, s = q +:+ b.
Proof.
  revert s. induction q as [|c q IH]; intros s; simpl.
  - split; [|done]. intros _. by exists s.
  - destruct s as [|x s].
    + split; [done|]. intros [b Hb]. by rewrite sapp_cons in Hb.
    + rewrite andb_true_iff, IH. split.
      * intros [Hc [b ->]]. apply Ascii.eqb_eq in Hc as ->.
        exists b. by rewrite sapp_cons.
      * intros [b Hb]. rewrite sapp_cons in Hb. injection Hb as -> ->.
        split; [apply Ascii.eqb_refl|by exists b].
Qed.

Lemma includes_cons x s q :
  includes (String x s) q = startsWith (String x s) q || includes s q.
Proof. reflexivity. Qed.

(** [includes] is the substring test. *)
Lemma includes_spec s q :
  includes s q = true <-> ∃ a b, s = a +:+ q +:+ b.
Proof.
  induction s as [|x s IH].
  - simpl. rewrite orb_false_r, startsWith_spec. split.
    + intros [b Hb]. by exists "", b.
    + intros [a [b Hb]]. destruct a; [by exists b|].
      by rewrite sapp_cons in Hb.
  - rewrite includes_cons, orb_true_iff, startsWith_spec, IH. split.
    + intros [[b Hb]|[a [b Hb]]].
      * by exists "", b.
      * exists (String x a), b. by rewrite sapp_cons, Hb.
    + intros [a [b Hb]]. destruct a as [|y a].
      * left. by exists b.
      * right. rewrite sapp_cons in Hb. injection Hb as -> ->.
        by exists a, b.
Qed.

(** A query without a line feed cannot start before a line feed and end
    after it. *)
Lemma startsWith_before_nl a b q :
  nl_free q = true ->
  startsWith (a +:+ NL +:+ b) q = startsWith a q.
Proof.
  revert q. induction a as [|x a IH]; intros q Hq.
  - destruct q as [|c q]; [done|]. simpl in *.
    apply andb_true_iff in Hq as [Hc _].
    by destruct (Ascii.eqb c nl).
  - destruct q as [|c q]; [done|]. rewrite sapp_cons. simpl in *.
    apply andb_true_iff in Hq as [_ Hq]. by rewrite IH.
Qed.

Lemma includes_across_nl a b q :
  nl_free q = true ->
  includes (a +:+ NL +:+ b) q = includes a q || includes b q.
Proof.
  intros Hq. induction a as [|x a IH].
  - rewrite sapp_nil_l. unfold NL. rewrite sapp_cons, sapp_nil_l.
    rewrite includes_cons.
    change (String nl b) with ("" +:+ NL +:+ b).
    rewrite startsWith_before_nl by done. simpl. by rewrite orb_false_r.
  - rewrite sapp_cons, !includes_cons, IH, <- sapp_cons.
    rewrite startsWith_before_nl by done. by rewrite orb_assoc.
Qed.

(** The whole-text scan of joined lines is the disjunction of the
    per-line scans, for a query without a line feed. *)
Lemma includes_join ls q :
  nl_free q = true -> ls ≠ [] ->
  includes (join NL ls) q = existsb (λ l, includes l q) ls.
Proof.
  intros Hq. induction ls as [|l ls IH]; [done|]. intros _.
  destruct ls as [|l' ls].
  - simpl. by rewrite orb_false_r.
  - rewrite join_cons by done. rewrite includes_across_nl by done.
    rewrite IH by done. done.
Qed.

Lemma lower_unit_nl (c : ascii) :
  Ascii.eqb (lower_unit c) nl = Ascii.eqb c nl.
Proof. by destruct c as [[] [] [] [] [] [] [] []]. Qed.

Lemma toLowerCase_split s :
  split_nl (toLowerCase s) = map toLowerCase (split_nl s).
Proof.
  induction s as [|c s IH]; simpl; [done|].
  rewrite lower_unit_nl. destruct (Ascii.eqb c nl).
  - simpl. by rewrite IH.
  - rewrite IH. pose proof (split_nl_nonempty s).
    by destruct (split_nl s).
Qed.

Lemma fold_case_split (caseSensitive : bool) s :
  split_nl (fold_case caseSensitive s)
  = map (fold_case caseSensitive) (split_nl s).
Proof.
  destruct caseSensitive; simpl.
  - by rewrite map_id.
  - apply toLowerCase_split.
Qed.

(** The two scans of [searchNotebook] agree on a query that, once
    folded, has no line feed. *)
Lemma scans_agree (caseSensitive : bool) s q :
  nl_free q = true ->
  includes (fold_case caseSensitive s) q
  = existsb (λ line, includes (fold_case caseSensitive line) q) (split_nl s).
Proof.
  intros Hq.
  rewrite <- (join_split_nl (fold_case caseSensitive s)) at 1.
  rewrite includes_join by (done || apply split_nl_nonempty).
  rewrite fold_case_split. induction (split_nl s) as [|l ls IH]; [done|].
  simpl. by rewrite IH.
Qed.

Lemma matchingLines_nonempty (caseSensitive : bool) q ls :
  existsb (λ line, includes (fold_case caseSensitive line) q) ls = true ->
  matchingLines caseSensitive q ls ≠ [].
Proof.
  intros H. apply existsb_exists in H as (line & Hin & Hline).
  apply list_elem_of_In, list_elem_of_lookup in Hin as [n Hn].
  intros Hnil.
  assert ((n, line) ∈ matchingLines caseSensitive q ls) as Hmem.
  { unfold matchingLines. apply list_elem_of_filter. split; [done|].
    apply elem_of_lookup_imap. eauto. }
  rewrite Hnil in Hmem. by apply not_elem_of_nil in Hmem.
Qed.

Lemma elem_of_searchNotebook nb query (caseSensitive : bool) r :
  r ∈ searchNotebook nb query caseSensitive
  <-> ∃ (index : nat) c,
        cells nb !! index = Some c
        ∧ search_cell query caseSensitive index c = Some r.
Proof.
  unfold searchNotebook. rewrite list_elem_of_omap. split.
  - intros (o & Ho & Hr). apply elem_of_lookup_imap in Ho
      as (index & c & -> & Hc). eauto.
  - intros (index & c & Hc & Hr). exists (Some r). split; [|done].
    apply elem_of_lookup_imap. exists index, c. by rewrite Hr.
Qed.
End SearchFacts.

(** C4, as stated, fails for a query that spans a line feed: searching the
    sample notebook for the two-line text of its first cell reports that
    cell, since the whole source contains the query, with an empty match
    list, since no single line does. *)
Lemma search_multiline_query_no_line_match :
  searchNotebook sample_notebook two_lines true
  = [mkSearchResult 0 "code" []]
  ∧ includes (fold_case true two_lines) (fold_case true two_lines) = true
  ∧ existsb (λ line, includes (fold_case true line) (fold_case true two_lines))
            (split_nl two_lines) = false.
Proof. repeat split. Qed.

(** C4, amended: for every document, every query and either
    case-sensitivity flag, search reports a cell exactly when its
    (optionally case-folded) normalized source contains the (optionally
    case-folded) query as a substring; and when the folded query holds no
    line feed, the per-line scan and the whole-source scan agree on every
    cell, so that every reported cell has a non-empty match list. *)
Theorem search_reports_matching_cells (nb : notebook) (query : string)
    (caseSensitive : bool) :
  let searchQuery := fold_case caseSensitive query in
  let results := searchNotebook nb query caseSensitive in
  (∀ (index : nat) (c : cell),
     cells nb !! index = Some c ->
     let searchText := fold_case caseSensitive (normalize (source c)) in
     (∃ r, r ∈ results ∧ cell_index r = index)
     <-> ∃ a b, searchText = a +:+ searchQuery +:+ b)
  ∧ (nl_free searchQuery = true ->
     (∀ c : cell,
        includes (fold_case caseSensitive (normalize (source c))) searchQuery
        = existsb
            (λ line, includes (fold_case caseSensitive line) searchQuery)
            (split_nl (normalize (source c))))
     ∧ (∀ r, r ∈ results -> matches r ≠ [])).
Proof.
  intros searchQuery results. split.
  - intros index c Hc searchText.
    rewrite <- includes_spec. unfold results. split.
    + intros (r & Hr & Hidx).
      apply elem_of_searchNotebook in Hr as (index' & c' & Hc' & Hr).
      unfold search_cell in Hr. simpl in Hr.
      destruct (includes _ _) eqn:Hinc; [|done].
      injection Hr as <-. simpl in Hidx. subst index'.
      rewrite Hc in Hc'. by injection Hc' as <-.
    + intros Hinc. eexists. split.
      * apply elem_of_searchNotebook. exists index, c. split; [done|].
        unfold search_cell. simpl. fold searchText searchQuery.
        by rewrite Hinc.
      * done.
  - intros Hq. split; [intros c; by apply scans_agree|].
    intros r Hr.
    apply elem_of_searchNotebook in Hr as (index & c & Hc & Hr).
    unfold search_cell in Hr. simpl in Hr.
    destruct (includes _ _) eqn:Hinc; [|done].
    injection Hr as <-. simpl.
    rewrite scans_agree in Hinc by done.
    apply (matchingLines_nonempty caseSensitive) in Hinc.
    intros Hnil. apply Hinc. by apply fmap_nil_inv in Hnil.
Qed.

(** The second part at a query without a line feed. *)
Lemma search_reports_matching_cells_witness :
  (∀ c : cell,
     includes (fold_case false (normalize (source c))) (fold_case false "A")
     = existsb (λ line, includes (fold_case false line) (fold_case false "A"))
               (split_nl (normalize (source c))))
  ∧ (∀ r, r ∈ searchNotebook sample_notebook "A" false -> matches r ≠ []).
Proof.
  apply (search_reports_matching_cells sample_notebook "A" false).
  reflexivity.
Defined.

(** The first part at a query that spans a line feed: the cell is
    reported, its folded source containing the folded query. *)
Example search_reports_multiline_query :
  (∃ r, r ∈ searchNotebook sample_notebook two_lines true ∧ cell_index r = 0%nat)
  ∧ fold_case true two_lines = "" +:+ fold_case true two_lines +:+ "".
Proof.
  split; [|reflexivity].
  exists (mkSearchResult 0 "code" []). split; [|done].
  vm_compute. left.
Qed.

(** The scenario of the specification: a case-insensitive search for
    "Hello" reports one match in each of the two cells. *)
Example search_hello :
  searchNotebook
    (mkNotebook [new_cell "markdown" "Hello World";
                 new_cell "code" "hello again"] ∅ 4 4)
    "Hello" false
  = [mkSearchResult 0 "markdown" [mkLineMatch 1 "Hello World"];
     mkSearchResult 1 "code" [mkLineMatch 1 "hello again"]].
Proof. reflexivity. Qed.

(** ** Outline *)

Section OutlineFacts.
Implicit Types (s : string) (re : list item).

Lemma search_from_eq (fresh : bool) re s :
  search_from fresh re s
  = match (if fresh then match_seq re s else None) with
    | Some caps => Some caps
    | None =>
        match s with
        | EmptyString => None
        | String c s' => search_from (is_line_terminator c) re s'
        end
    end.
Proof. by destruct s. Qed.

Lemma line_starts_from_eq (fresh : bool) s :
  line_starts_from fresh s
  = (if fresh then [s] else []) ++
    match s with
    | EmptyString => []
    | String c s' => line_starts_from (is_line_terminator c) s'
    end.
Proof. by destruct s. Qed.



(** *** The patterns on a definition line *)

Lemma match_seq_lits (kw : string) re s :
  match_seq (lits kw ++ re) (kw +:+ s) = match_seq re s.
Proof.
  induction kw as [|c kw IH]; [done|].
  change (lits (String c kw)) with (Lit c :: lits kw).
  rewrite sapp_cons. simpl. by rewrite Ascii.eqb_refl.
Qed.

Lemma run_length_app (class : ascii -> bool) (a b : string) :
  all_in class a = true ->
  run_length class (a +:+ b) = (String.length a + run_length class b)%nat.
Proof.
  induction a as [|c a IH]; [done|]. rewrite sapp_cons. simpl.
  intros [-> Ha]%andb_true_iff. by rewrite IH.
Qed.

Lemma stake_app (a b : string) : stake (String.length a) (a +:+ b) = a.
Proof.
  induction a as [|c a IH]; [by destruct b|].
  rewrite sapp_cons. simpl. by rewrite IH.
Qed.

Lemma sdrop_app (a b : string) : sdrop (String.length a) (a +:+ b) = b.
Proof. induction a as [|c a IH]; [done|]. by rewrite sapp_cons. Qed.

(** A [+] keeps its longest run when the rest of the pattern matches
    right after it. *)
Lemma match_seq_longest (captured : bool) (class : ascii -> bool) re s caps :
  (0 < run_length class s)%nat ->
  match_seq re (sdrop (run_length class s) s) = Some caps ->
  match_seq (Plus captured class :: re) s
  = Some (if captured then stake (run_length class s) s :: caps else caps).
Proof.
  intros Hn Hrest. simpl.
  destruct (run_length class s) as [|k]; [lia|]. by rewrite Hrest.
Qed.

Lemma word_is_not_space (c : ascii) : is_word c = true -> is_space c = false.
Proof. by destruct c as [[] [] [] [] [] [] [] []]. Qed.

(** On a line that reads keyword, blanks, name, the patterns of
    [getOutline] capture the name: the longest run of word characters
    after the blanks. *)
Lemma keyword_line_capture (kw ws name rest : string) :
  ws ≠ "" -> all_in is_space ws = true ->
  name ≠ "" -> all_in is_word name = true ->
  run_length is_word rest = 0%nat ->
  match_seq (lits kw ++ [Plus false is_space; Plus true is_word])
            (kw +:+ ws +:+ name +:+ rest)
  = Some [name].
Proof.
  intros Hws Hspace Hname Hword Hrest. rewrite match_seq_lits.
  assert (run_length is_space (ws +:+ name +:+ rest) = String.length ws)
    as Hrun.
  { rewrite run_length_app by done. destruct name as [|c name]; [done|].
    rewrite sapp_cons. simpl in *.
    apply andb_true_iff in Hword as [Hc _].
    rewrite (word_is_not_space _ Hc). lia. }
  assert (run_length is_word (name +:+ rest) = String.length name) as Hrun'.
  { rewrite run_length_app by done. lia. }
  rewrite (match_seq_longest false is_space _ _ [name]).
  - done.
  - rewrite Hrun. destruct ws; [done|]. simpl. lia.
  - rewrite Hrun, sdrop_app.
    rewrite (match_seq_longest true is_word [] _ []).
    + by rewrite Hrun', stake_app.
    + rewrite Hrun'. destruct name; [done|]. simpl. lia.
    + done.
Qed.

(** *** Line starts and [split] *)

Lemma line_starts_not_fresh s :
  line_starts_from false s = tail (line_starts_from true s).
Proof. by rewrite !line_starts_from_eq. Qed.

(** In a source without carriage returns the line starts of the patterns
    are the lines of [source.split('\n')]: the [i]-th one is the text
    from line [i] on. *)
Lemma line_starts_split_nl s :
  cr_free s = true ->
  line_starts s
  = map (λ i, join NL (drop i (split_nl s)))
        (seq 0 (length (split_nl s))).
Proof.
  unfold line_starts, cr_free.
  induction s as [|c s IH]; [done|]. simpl.
  intros [Hc Hs]%andb_true_iff. specialize (IH Hs).
  unfold is_line_terminator.
  destruct (Ascii.eqb c cr); [done|]. rewrite orb_false_r.
  destruct (Ascii.eqb_spec c nl) as [->|Hnl].
  - cbn [length seq map skipn].
    rewrite join_cons by apply split_nl_nonempty.
    rewrite join_split_nl. f_equal.
    rewrite IH, <- seq_shift, map_map. done.
  - rewrite line_starts_not_fresh, IH.
    pose proof (join_split_nl s) as Hjoin.
    pose proof (split_nl_nonempty s) as Hne.
    destruct (split_nl s) as [|l ls]; [done|].
    cbn [length seq map skipn tail].
    rewrite join_cons_char, Hjoin. f_equal.
    rewrite <- seq_shift, !map_map. done.
Qed.

(** The line starts of [s]: [s] itself, and every suffix that follows a
    line terminator. *)
Lemma line_starts_from_spec (fresh : bool) s s' :
  s' ∈ line_starts_from fresh s
  <-> (fresh = true ∧ s' = s)
      ∨ ∃ pre c, s = pre +:+ String c s' ∧ is_line_terminator c = true.
Proof.
  revert fresh. induction s as [|x t IH]; intros fresh.
  - rewrite line_starts_from_eq, app_nil_r. split.
    + destruct fresh; [|by intros ?%elem_of_nil].
      intros ->%list_elem_of_singleton. by left.
    + intros [[-> ->]|(pre & c & Hs & _)]; [by apply list_elem_of_singleton|].
      by destruct pre.
  - rewrite line_starts_from_eq, elem_of_app, IH. split.
    + intros [Hhead|[[Hx ->]|(pre & c & -> & Hc)]].
      * destruct fresh; [|by apply elem_of_nil in Hhead].
        apply list_elem_of_singleton in Hhead as ->. by left.
      * right. by exists "", x.
      * right. by exists (String x pre), c.
    + intros [[-> ->]|(pre & c & Hs & Hc)].
      * left. by apply list_elem_of_singleton.
      * right. destruct pre as [|y pre].
        -- rewrite sapp_nil_l in Hs. injection Hs as -> ->. by left.
        -- rewrite sapp_cons in Hs. injection Hs as -> ->.
           right. by exists pre, c.
Qed.

Lemma line_starts_spec s s' :
  s' ∈ line_starts s
  <-> s' = s ∨ ∃ pre c, s = pre +:+ String c s' ∧ is_line_terminator c = true.
Proof.
  unfold line_starts. rewrite line_starts_from_spec. split.
  - intros [[_ ->]|H]; [by left|by right].
  - intros [->|H]; [by left|by right].
Qed.

Lemma code_is_not_markdown (ty : string) :
  is_code ty = true -> String.eqb ty "markdown" = false.
Proof. unfold is_code. intros H. by apply String.eqb_eq in H as ->. Qed.
End OutlineFacts.


(** The blanks of the patterns run over line breaks: in a cell whose two
    lines are [def] and [class Foo] no line alone matches the function
    pattern and the second line matches the class pattern, yet the function
    pattern matches from the first line start on and the cell is titled
    after a function named [class]. *)
Example def_blanks_run_over_lines :
  split_nl ("def" +:+ NL +:+ "class Foo") = ["def"; "class Foo"]
  ∧ match_seq def_re "def" = None
  ∧ match_seq def_re "class Foo" = None
  ∧ match_seq class_re "class Foo" = Some ["Foo"]
  ∧ match_seq def_re ("def" +:+ NL +:+ "class Foo") = Some ["class"]
  ∧ title_suffix (new_cell "code" ("def" +:+ NL +:+ "class Foo"))
    = " - def class()".
Proof. repeat split. Qed.



(** The scenario of the specification: create, insert a heading at the
    top, insert a code cell after it; the outline names the heading. *)
Example outline_scenario :
  ∃ nb1 nb2,
    addCell "markdown" "# Title" (-1) empty_notebook = (inr (), nb1)
    ∧ addCell "code" "print(1)" 0 nb1 = (inr (), nb2)
    ∧ length (cells nb2) = 2%nat
    ∧ getOutline nb2
      = "Cell 0 (markdown) - Title (1 lines)" +:+ NL
          +:+ "Cell 1 (code) (1 lines)".
Proof. do 2 eexists. repeat split. Qed.

(** * Further properties of the handlers *)

Section ReadFacts.
Implicit Types (nb : notebook) (i j : Z) (c : cell).

Lemma readCell_run nb i :
  readCell i nb
  = match at_index (cells nb) i with
    | Some c => (inr (normalize (source c)), nb)
    | None => (inl (CellIndexOutOfBounds i), nb)
    end.
Proof.
  unfold readCell. rewrite checked_run.
  destruct (at_index _ _) as [c|] eqn:Hc.
  - pose proof (get_cell_run _ _ _ Hc) as Hget.
    apply at_index_range in Hc as (-> & _ & _). by rewrite bind_run, Hget.
  - apply at_index_None in Hc. by rewrite Hc.
Qed.

Lemma readCellOutput_run nb i :
  readCellOutput i nb
  = match at_index (cells nb) i with
    | Some c => (inr (default [] (outputs c)), nb)
    | None => (inl (CellIndexOutOfBounds i), nb)
    end.
Proof.
  unfold readCellOutput. rewrite checked_run.
  destruct (at_index _ _) as [c|] eqn:Hc.
  - pose proof (get_cell_run _ _ _ Hc) as Hget.
    apply at_index_range in Hc as (-> & _ & _). by rewrite bind_run, Hget.
  - apply at_index_None in Hc. by rewrite Hc.
Qed.

Lemma readCellMetadata_run nb i :
  readCellMetadata i nb
  = match at_index (cells nb) i with
    | Some c => (inr (default ∅ (metadata c)), nb)
    | None => (inl (CellIndexOutOfBounds i), nb)
    end.
Proof.
  unfold readCellMetadata. rewrite checked_run.
  destruct (at_index _ _) as [c|] eqn:Hc.
  - pose proof (get_cell_run _ _ _ Hc) as Hget.
    apply at_index_range in Hc as (-> & _ & _). by rewrite bind_run, Hget.
  - apply at_index_None in Hc. by rewrite Hc.
Qed.

Lemma at_index_alter_eq (cs : list cell) (f : cell -> cell) i :
  at_index (alter f (Z.to_nat i) cs) i = f <$> at_index cs i.
Proof.
  unfold at_index. destruct (Z.ltb_spec i 0); [done|].
  apply list_lookup_alter_eq.
Qed.

Lemma at_index_alter_ne (cs : list cell) (f : cell -> cell) i j :
  0 <= i -> j ≠ i ->
  at_index (alter f (Z.to_nat i) cs) j = at_index cs j.
Proof.
  intros Hi Hj. unfold at_index. destruct (Z.ltb_spec j 0); [done|].
  apply list_lookup_alter_ne. lia.
Qed.

Lemma in_range_at_index nb i :
  0 <= i < Z.of_nat (length (cells nb)) ->
  ∃ c, at_index (cells nb) i = Some c.
Proof. intros H. by apply at_index_in_range, in_range_spec. Qed.
End ReadFacts.

(** X1: [clearAllOutputs] never fails and is idempotent; it keeps the
    number of cells and every cell's type, source and metadata, leaves a
    cell that is not a code cell exactly as it was, and gives every code
    cell [outputs = []] and [execution_count = null]. *)
Theorem clearAllOutputs_idempotent (nb : notebook) :
  ∃ nb1,
    clearAllOutputs nb = (inr (), nb1)
    ∧ clearAllOutputs nb1 = (inr (), nb1)
    ∧ length (cells nb1) = length (cells nb)
    ∧ ∀ (n : nat) (c : cell),
        cells nb !! n = Some c ->
        ∃ c', cells nb1 !! n = Some c'
              ∧ cell_type c' = cell_type c
              ∧ source c' = source c
              ∧ metadata c' = metadata c
              ∧ (is_code (cell_type c) = true ->
                 outputs c' = Some [] ∧ execution_count c' = Some None)
              ∧ (is_code (cell_type c) = false -> c' = c).
Proof.
  eexists. split; [reflexivity|]. simpl.
  assert (∀ c, clear_outputs (clear_outputs c) = clear_outputs c) as Hidem.
  { intros c. unfold clear_outputs.
    destruct (is_code (cell_type c)) eqn:Hc; simpl; by rewrite Hc. }
  split.
  - unfold clearAllOutputs, modify_cells. simpl. do 2 f_equal.
    rewrite map_map. apply map_ext. intros c. apply Hidem.
  - split; [by rewrite length_map|].
    intros n c Hc. exists (clear_outputs c). split.
    + change (map clear_outputs (cells nb)) with (clear_outputs <$> cells nb).
      by rewrite list_lookup_fmap, Hc.
    + unfold clear_outputs. by destruct (is_code (cell_type c)).
Qed.

(** X2: for a valid index, [deleteCell] removes exactly the cell at that
    index: the cells before it stay in place, the cells after it move down
    by one, and the count decreases by one. *)
Theorem deleteCell_shifts (nb : notebook) (i : Z) :
  0 <= i < Z.of_nat (length (cells nb)) ->
  ∃ nb',
    deleteCell i nb = (inr (), nb')
    ∧ S (length (cells nb')) = length (cells nb)
    ∧ (∀ n : nat, (n < Z.to_nat i)%nat -> cells nb' !! n = cells nb !! n)
    ∧ (∀ n : nat, (Z.to_nat i <= n)%nat -> cells nb' !! n = cells nb !! S n)
    ∧ nb_metadata nb' = nb_metadata nb.
Proof.
  intros Hi. rewrite deleteCell_run.
  assert (in_range (length (cells nb)) i = true) as ->
    by (by apply in_range_spec).
  eexists. split; [reflexivity|]. simpl.
  split; [rewrite length_delete by (apply lookup_lt_is_Some; lia); lia|].
  split; [|split; [|done]].
  - intros n Hn. by apply list_lookup_delete_lt.
  - intros n Hn. by apply list_lookup_delete_ge.
Qed.

Lemma deleteCell_shifts_witness :
  ∃ nb',
    deleteCell 0 sample_notebook = (inr (), nb')
    ∧ S (length (cells nb')) = length (cells sample_notebook)
    ∧ (∀ n : nat, (n < Z.to_nat 0)%nat ->
                  cells nb' !! n = cells sample_notebook !! n)
    ∧ (∀ n : nat, (Z.to_nat 0 <= n)%nat ->
                  cells nb' !! n = cells sample_notebook !! S n)
    ∧ nb_metadata nb' = nb_metadata sample_notebook.
Proof. apply (deleteCell_shifts sample_notebook 0). simpl. lia. Defined.

(** X3: inserting after an anchor [index] with [-1 <= index < len] and
    then deleting the cell at [index + 1] gives back the document as it
    was. *)
Theorem addCell_then_deleteCell (nb : notebook) (ty src : string)
    (index : Z) :
  -1 <= index < Z.of_nat (length (cells nb)) ->
  ∃ nb1,
    addCell ty src index nb = (inr (), nb1)
    ∧ at_index (cells nb1) (index + 1) = Some (new_cell ty src)
    ∧ deleteCell (index + 1) nb1 = (inr (), nb).
Proof.
  intros Hi. rewrite addCell_run. eexists. split; [reflexivity|].
  rewrite clamp_in_range by lia. simpl.
  set (p := Z.to_nat (index + 1)).
  assert (length (take p (cells nb)) = p) as Htake
    by (apply take_length_lt; lia).
  split.
  - apply at_index_Some. split; [lia|]. by apply list_lookup_middle.
  - rewrite deleteCell_run. simpl.
    assert (in_range (length (take p (cells nb) ++ new_cell ty src
                                :: drop p (cells nb))) (index + 1) = true)
      as ->.
    { apply in_range_spec. rewrite length_app, Htake. simpl.
      rewrite length_drop. lia. }
    fold p. rewrite delete_take_drop.
    rewrite take_take_app by lia.
    rewrite cons_middle, app_assoc.
    rewrite drop_app_length' by (rewrite length_app, Htake; simpl; lia).
    rewrite take_drop. by rewrite set_cells_set_cells, set_cells_same.
Qed.

Lemma addCell_then_deleteCell_witness :
  ∃ nb1,
    addCell "raw" "x" 0 sample_notebook = (inr (), nb1)
    ∧ at_index (cells nb1) (0 + 1) = Some (new_cell "raw" "x")
    ∧ deleteCell (0 + 1) nb1 = (inr (), sample_notebook).
Proof.
  apply (addCell_then_deleteCell sample_notebook "raw" "x" 0). simpl. lia.
Defined.

(** X4: for a valid index, [editCell] replaces the source of that cell by
    the new string and nothing else: type, metadata, execution count and
    outputs of the cell stay, every other cell stays, and a [readCell] of
    the same index then returns the new source. *)
Theorem editCell_then_readCell (nb : notebook) (i : Z) (src : string) :
  0 <= i < Z.of_nat (length (cells nb)) ->
  ∃ c nb',
    at_index (cells nb) i = Some c
    ∧ editCell i src nb = (inr (), nb')
    ∧ readCell i nb' = (inr src, nb')
    ∧ at_index (cells nb') i
      = Some (mkCell (cell_type c) (metadata c) (SrcStr src)
                     (execution_count c) (outputs c))
    ∧ (∀ j, j ≠ i -> at_index (cells nb') j = at_index (cells nb) j)
    ∧ length (cells nb') = length (cells nb).
Proof.
  intros Hi. destruct (in_range_at_index nb i Hi) as [c Hc].
  exists c. eexists. split; [done|].
  rewrite editCell_run.
  assert (in_range (length (cells nb)) i = true) as ->
    by (by apply in_range_spec).
  split; [reflexivity|]. simpl.
  assert (at_index (alter (λ c, set_source c (SrcStr src)) (Z.to_nat i)
                      (cells nb)) i
          = Some (set_source c (SrcStr src))) as Hat
    by (by rewrite at_index_alter_eq, Hc).
  split; [by rewrite readCell_run; simpl; rewrite Hat|].
  split; [done|]. split; [|by rewrite length_alter].
  intros j Hj. apply at_index_alter_ne; [lia|done].
Qed.

Lemma editCell_then_readCell_witness :
  ∃ c nb',
    at_index (cells sample_notebook) 0 = Some c
    ∧ editCell 0 "y = 2" sample_notebook = (inr (), nb')
    ∧ readCell 0 nb' = (inr "y = 2", nb')
    ∧ at_index (cells nb') 0
      = Some (mkCell (cell_type c) (metadata c) (SrcStr "y = 2")
                     (execution_count c) (outputs c))
    ∧ (∀ j, j ≠ 0 ->
            at_index (cells nb') j = at_index (cells sample_notebook) j)
    ∧ length (cells nb') = length (cells sample_notebook).
Proof.
  apply (editCell_then_readCell sample_notebook 0 "y = 2"). simpl. lia.
Defined.

(** X5: [changeCellType] is a lossy reset.  For a valid index, retyping a
    cell to any type and then to ['code'] leaves a code cell with the
    original source and metadata, [execution_count = null] and
    [outputs = []], whatever the cell held before; after the first step a
    cell retyped to a type other than ['code'] has neither field. *)
Theorem changeCellType_resets_execution (nb : notebook) (i : Z)
    (ty : string) :
  0 <= i < Z.of_nat (length (cells nb)) ->
  ∃ c nb1 nb2,
    at_index (cells nb) i = Some c
    ∧ changeCellType i ty nb = (inr (), nb1)
    ∧ changeCellType i "code" nb1 = (inr (), nb2)
    ∧ at_index (cells nb2) i
      = Some (mkCell "code" (metadata c) (source c) (Some None) (Some []))
    ∧ (is_code ty = false ->
       at_index (cells nb1) i
       = Some (mkCell ty (metadata c) (source c) None None))
    ∧ (∀ j, j ≠ i -> at_index (cells nb2) j = at_index (cells nb) j).
Proof.
  intros Hi. destruct (in_range_at_index nb i Hi) as [c Hc].
  exists c. eexists. eexists. split; [done|].
  rewrite changeCellType_run.
  assert (in_range (length (cells nb)) i = true) as ->
    by (by apply in_range_spec).
  split; [reflexivity|].
  rewrite changeCellType_run. simpl. rewrite length_alter.
  assert (in_range (length (cells nb)) i = true) as ->
    by (by apply in_range_spec).
  split; [reflexivity|]. simpl.
  split; [|split].
  - rewrite !at_index_alter_eq, Hc. simpl. by destruct (is_code ty).
  - intros Hty. by rewrite at_index_alter_eq, Hc, Hty.
  - intros j Hj. rewrite !at_index_alter_ne by (lia || done). done.
Qed.

Lemma changeCellType_resets_execution_witness :
  ∃ c nb1 nb2,
    at_index (cells sample_notebook) 0 = Some c
    ∧ changeCellType 0 "markdown" sample_notebook = (inr (), nb1)
    ∧ changeCellType 0 "code" nb1 = (inr (), nb2)
    ∧ at_index (cells nb2) 0
      = Some (mkCell "code" (metadata c) (source c) (Some None) (Some []))
    ∧ (is_code "markdown" = false ->
       at_index (cells nb1) 0
       = Some (mkCell "markdown" (metadata c) (source c) None None))
    ∧ (∀ j, j ≠ 0 ->
            at_index (cells nb2) j = at_index (cells sample_notebook) j).
Proof.
  apply (changeCellType_resets_execution sample_notebook 0 "markdown").
  simpl. lia.
Defined.

Section ComposeFacts.
Implicit Types (nb : notebook) (cs : list cell) (c : cell).

Lemma take_succ_inserted cs (p : nat) c :
  (p <= length cs)%nat ->
  take (S p) (take p cs ++ c :: drop p cs) = take p cs ++ [c].
Proof.
  intros Hp. rewrite cons_middle, app_assoc.
  apply take_app_length'. rewrite length_app, take_length_lt by done.
  simpl. lia.
Qed.

Lemma drop_succ_inserted cs (p : nat) c :
  (p <= length cs)%nat ->
  drop (S p) (take p cs ++ c :: drop p cs) = drop p cs.
Proof.
  intros Hp. rewrite cons_middle, app_assoc.
  apply drop_app_length'. rewrite length_app, take_length_lt by done.
  simpl. lia.
Qed.

Lemma length_inserted cs (p : nat) c :
  length (take p cs ++ c :: drop p cs) = S (length cs).
Proof.
  rewrite length_app, length_take. simpl. rewrite length_drop. lia.
Qed.

Lemma clamp_next (len : nat) (index : Z) :
  -1 <= index -> clamp (S len) (index + 1 + 1) = S (clamp len (index + 1)).
Proof.
  intros H. unfold clamp.
  destruct (Z.ltb_spec (index + 1 + 1) 0), (Z.ltb_spec (index + 1) 0); lia.
Qed.

Lemma add_each_run (cellData : list (string * string)) nb (index : Z) :
  -1 <= index ->
  add_each cellData index nb = bulkAddCells cellData index nb.
Proof.
  revert nb index. induction cellData as [|d rest IH]; intros nb index Hi.
  - rewrite bulkAddCells_run. simpl. by rewrite take_drop, set_cells_same.
  - simpl. rewrite bind_run, addCell_run. rewrite IH by lia.
    rewrite !bulkAddCells_run. simpl. rewrite set_cells_set_cells.
    pose proof (clamp_le (length (cells nb)) (index + 1)) as Hp.
    rewrite length_inserted, clamp_next by done.
    rewrite take_succ_inserted, drop_succ_inserted by done.
    by rewrite <- app_assoc.
Qed.
End ComposeFacts.

(** X6: for an anchor [index >= -1], [bulkAddCells] does what one
    [addCell] per entry does, the first after [index], the next after
    [index + 1] and so on: the new cells form one block, in the given
    order, and the count grows by the number of entries. *)
Theorem bulkAddCells_as_addCells (nb : notebook)
    (cellData : list (string * string)) (index : Z) :
  -1 <= index ->
  ∃ nb',
    bulkAddCells cellData index nb = (inr (), nb')
    ∧ add_each cellData index nb = (inr (), nb')
    ∧ cells nb'
      = (let p := clamp (length (cells nb)) (index + 1) in
         take p (cells nb)
           ++ map (λ d, new_cell d.1 d.2) cellData ++ drop p (cells nb))
    ∧ length (cells nb') = (length (cells nb) + length cellData)%nat.
Proof.
  intros Hi. rewrite add_each_run by done. rewrite bulkAddCells_run.
  eexists. do 3 (split; [reflexivity|]). simpl.
  pose proof (clamp_le (length (cells nb)) (index + 1)).
  rewrite !length_app, length_take, length_map, length_drop. lia.
Qed.

Lemma bulkAddCells_as_addCells_witness :
  ∃ nb',
    bulkAddCells [("code", "x"); ("raw", "y")] 0 sample_notebook
    = (inr (), nb')
    ∧ add_each [("code", "x"); ("raw", "y")] 0 sample_notebook
      = (inr (), nb')
    ∧ cells nb'
      = (let p := clamp (length (cells sample_notebook)) (0 + 1) in
         take p (cells sample_notebook)
           ++ map (λ d, new_cell d.1 d.2) [("code", "x"); ("raw", "y")]
           ++ drop p (cells sample_notebook))
    ∧ length (cells nb')
      = (length (cells sample_notebook)
         + length [("code", "x"); ("raw", "y")])%nat.
Proof.
  apply (bulkAddCells_as_addCells sample_notebook
           [("code", "x"); ("raw", "y")] 0). lia.
Defined.

(** X7: for two valid indices, moving a cell from [i] to [j] and then
    from [j] back to [i] gives back the document as it was. *)
Theorem moveCell_back (nb : notebook) (i j : Z) :
  0 <= i < Z.of_nat (length (cells nb)) ->
  0 <= j < Z.of_nat (length (cells nb)) ->
  ∃ nb1, moveCell i j nb = (inr (), nb1) ∧ moveCell j i nb1 = (inr (), nb).
Proof.
  intros Hi Hj. destruct (in_range_at_index nb i Hi) as [c Hc].
  rewrite moveCell_run, Hc.
  assert (in_range (length (cells nb)) j = true) as ->
    by (by apply in_range_spec).
  eexists. split; [reflexivity|]. simpl.
  apply at_index_Some in Hc as [_ Hc].
  set (n := Z.to_nat i) in *. set (m := Z.to_nat j).
  set (rest := delete n (cells nb)).
  assert (length rest = (length (cells nb) - 1)%nat) as Hrest
    by (apply length_delete; eauto).
  assert (m <= length rest)%nat as Hm by lia.
  rewrite moveCell_run. simpl.
  assert (at_index (take m rest ++ c :: drop m rest) j = Some c) as ->.
  { apply at_index_Some. split; [lia|].
    apply list_lookup_middle. by rewrite take_length_lt. }
  assert (in_range (length (take m rest ++ c :: drop m rest)) i = true) as ->.
  { apply in_range_spec. rewrite length_inserted. lia. }
  fold n m. rewrite set_cells_set_cells.
  assert (delete m (take m rest ++ c :: drop m rest) = rest) as ->.
  { rewrite delete_take_drop.
    rewrite take_take_app, drop_succ_inserted by done. apply take_drop. }
  unfold rest. rewrite delete_take_drop.
  rewrite take_take_app by lia.
  rewrite drop_app_length' by (rewrite take_length_lt; lia).
  rewrite take_drop_middle by done. by rewrite set_cells_same.
Qed.

Lemma moveCell_back_witness :
  ∃ nb1, moveCell 0 1 sample_notebook = (inr (), nb1)
         ∧ moveCell 1 0 nb1 = (inr (), sample_notebook).
Proof. apply (moveCell_back sample_notebook 0 1); simpl; lia. Defined.

(** X8: a negative count is not rejected: for a valid index,
    [duplicateCell] with [count <= 0] returns without inserting anything,
    and through the dispatcher a negative count (which is truthy, so the
    default does not apply) reports success and persists the document
    unchanged. *)
Theorem duplicate_negative_count (nb : notebook) (i count : Z) :
  0 <= i < Z.of_nat (length (cells nb)) ->
  count < 0 ->
  duplicateCell i count nb = (inr (), nb)
  ∧ call_tool (notebook_duplicate_cell i (Some count)) nb = (None, nb).
Proof.
  intros Hi Hcount. destruct (in_range_at_index nb i Hi) as [c Hc].
  assert (duplicateCell i count nb = (inr (), nb)) as Hrun.
  { rewrite duplicateCell_run, Hc.
    replace (Z.to_nat count) with 0%nat by lia. simpl.
    by rewrite take_drop, set_cells_same. }
  split; [done|]. unfold call_tool. simpl.
  destruct (Z.eqb_spec count 0); [lia|]. by rewrite Hrun.
Qed.

Lemma duplicate_negative_count_witness :
  duplicateCell 0 (-2) sample_notebook = (inr (), sample_notebook)
  ∧ call_tool (notebook_duplicate_cell 0 (Some (-2))) sample_notebook
    = (None, sample_notebook).
Proof.
  apply (duplicate_negative_count sample_notebook 0 (-2)); simpl; lia.
Defined.

(** X9: on a code cell, [editCellOutput] replaces the outputs wholesale
    and keeps the stored execution count; [readCellOutput] then returns
    the new outputs; [clearCellOutputs] after that leaves [outputs = []]
    and [execution_count = null], and [readCellOutput] returns the empty
    list. *)
Theorem outputs_edit_read_clear (nb : notebook) (i : Z) (c : cell)
    (outs : list json) :
  at_index (cells nb) i = Some c ->
  is_code (cell_type c) = true ->
  ∃ nb1 nb2,
    editCellOutput i outs nb = (inr (), nb1)
    ∧ readCellOutput i nb1 = (inr outs, nb1)
    ∧ at_index (cells nb1) i
      = Some (mkCell (cell_type c) (metadata c) (source c)
                     (execution_count c) (Some outs))
    ∧ clearCellOutputs i nb1 = (inr (), nb2)
    ∧ readCellOutput i nb2 = (inr [], nb2)
    ∧ at_index (cells nb2) i
      = Some (mkCell (cell_type c) (metadata c) (source c)
                     (Some None) (Some [])).
Proof.
  intros Hc Hcode.
  pose proof (at_index_range _ _ _ Hc) as (Hi & Hi0 & _).
  rewrite editCellOutput_run, Hc, Hcode.
  eexists. eexists. split; [reflexivity|].
  rewrite readCellOutput_run. simpl.
  rewrite at_index_alter_eq, Hc. simpl.
  do 2 (split; [reflexivity|]).
  rewrite clearCellOutputs_run. simpl. rewrite length_alter, Hi.
  split; [reflexivity|].
  rewrite readCellOutput_run. simpl.
  rewrite !at_index_alter_eq, Hc. simpl.
  unfold clear_outputs. simpl. by rewrite Hcode.
Qed.

Lemma outputs_edit_read_clear_witness :
  ∃ nb1 nb2,
    editCellOutput 0 [JStr "new"] sample_notebook = (inr (), nb1)
    ∧ readCellOutput 0 nb1 = (inr [JStr "new"], nb1)
    ∧ at_index (cells nb1) 0
      = Some (mkCell (cell_type (code_cell two_lines (Some 3) [JStr "out"]))
                     (metadata (code_cell two_lines (Some 3) [JStr "out"]))
                     (source (code_cell two_lines (Some 3) [JStr "out"]))
                     (execution_count
                        (code_cell two_lines (Some 3) [JStr "out"]))
                     (Some [JStr "new"]))
    ∧ clearCellOutputs 0 nb1 = (inr (), nb2)
    ∧ readCellOutput 0 nb2 = (inr [], nb2)
    ∧ at_index (cells nb2) 0
      = Some (mkCell (cell_type (code_cell two_lines (Some 3) [JStr "out"]))
                     (metadata (code_cell two_lines (Some 3) [JStr "out"]))
                     (source (code_cell two_lines (Some 3) [JStr "out"]))
                     (Some None) (Some [])).
Proof.
  apply (outputs_edit_read_clear sample_notebook 0
           (code_cell two_lines (Some 3) [JStr "out"]) [JStr "new"]);
    reflexivity.
Defined.

(** X10: for a valid index, [editCellMetadata] merges the given mapping
    into the cell's metadata, a missing metadata object counting as empty:
    afterwards [readCellMetadata] returns a mapping in which every key of
    the given one has the given value and every other key has its old
    value; the rest of the cell is untouched, and running the same edit
    again changes nothing. *)
Theorem editCellMetadata_merges (nb : notebook) (i : Z)
    (md : gmap string json) :
  0 <= i < Z.of_nat (length (cells nb)) ->
  ∃ c nb' (merged : gmap string json),
    at_index (cells nb) i = Some c
    ∧ editCellMetadata i md nb = (inr (), nb')
    ∧ readCellMetadata i nb' = (inr merged, nb')
    ∧ (∀ k v, md !! k = Some v -> merged !! k = Some v)
    ∧ (∀ k, md !! k = None -> merged !! k = default ∅ (metadata c) !! k)
    ∧ at_index (cells nb') i
      = Some (mkCell (cell_type c) (Some merged) (source c)
                     (execution_count c) (outputs c))
    ∧ (∀ j, j ≠ i -> at_index (cells nb') j = at_index (cells nb) j)
    ∧ editCellMetadata i md nb' = (inr (), nb').
Proof.
  intros Hi. destruct (in_range_at_index nb i Hi) as [c Hc].
  assert (in_range (length (cells nb)) i = true) as Hr
    by (by apply in_range_spec).
  exists c. eexists. exists (spread (default ∅ (metadata c)) md).
  split; [done|]. rewrite editCellMetadata_run, Hr.
  split; [reflexivity|].
  rewrite readCellMetadata_run. simpl. rewrite at_index_alter_eq, Hc. simpl.
  split; [done|]. unfold spread.
  split; [intros k v Hk; by apply lookup_union_Some_l|].
  split; [intros k Hk; by apply lookup_union_r|].
  split; [done|].
  split; [intros j Hj; apply at_index_alter_ne; [lia|done]|].
  rewrite editCellMetadata_run. simpl. rewrite length_alter, Hr.
  rewrite set_cells_set_cells. do 2 f_equal.
  rewrite list_alter_alter_eq. apply list_alter_ext; [|done].
  intros c' _. simpl. unfold spread.
  by rewrite (assoc_L (∪)), (idemp_L (∪)).
Qed.

Lemma editCellMetadata_merges_witness :
  ∃ c nb' (merged : gmap string json),
    at_index (cells sample_notebook) 0 = Some c
    ∧ editCellMetadata 0 {["tag" := JBool true]} sample_notebook
      = (inr (), nb')
    ∧ readCellMetadata 0 nb' = (inr merged, nb')
    ∧ (∀ k v, ({["tag" := JBool true]} : gmap string json) !! k = Some v ->
              merged !! k = Some v)
    ∧ (∀ k, ({["tag" := JBool true]} : gmap string json) !! k = None ->
            merged !! k = default ∅ (metadata c) !! k)
    ∧ at_index (cells nb') 0
      = Some (mkCell (cell_type c) (Some merged) (source c)
                     (execution_count c) (outputs c))
    ∧ (∀ j, j ≠ 0 ->
            at_index (cells nb') j = at_index (cells sample_notebook) j)
    ∧ editCellMetadata 0 {["tag" := JBool true]} nb' = (inr (), nb').
Proof.
  apply (editCellMetadata_merges sample_notebook 0 {["tag" := JBool true]}).
  simpl. lia.
Defined.

(** X11: [editMetadata] merges the given mapping into the document
    metadata and touches nothing else: a later [readMetadata] gives the
    given value for every key of the mapping and the old value for every
    other key; the cells and the format version stay as they were. *)
Theorem editMetadata_merges (nb : notebook) (md : gmap string json) :
  ∃ nb' (merged : gmap string json),
    editMetadata md nb = (inr (), nb')
    ∧ readMetadata nb' = (inr merged, nb')
    ∧ (∀ k v, md !! k = Some v -> merged !! k = Some v)
    ∧ (∀ k, md !! k = None -> merged !! k = nb_metadata nb !! k)
    ∧ cells nb' = cells nb
    ∧ nbformat nb' = nbformat nb
    ∧ nbformat_minor nb' = nbformat_minor nb
    ∧ editMetadata md nb' = (inr (), nb').
Proof.
  eexists. exists (spread (nb_metadata nb) md).
  split; [reflexivity|]. split; [reflexivity|]. unfold spread.
  split; [intros k v Hk; by apply lookup_union_Some_l|].
  split; [intros k Hk; by apply lookup_union_r|].
  do 3 (split; [reflexivity|]).
  unfold editMetadata, modify_metadata, spread. simpl.
  by rewrite (assoc_L (∪)), (idemp_L (∪)).
Qed.

Section LineFacts.
Implicit Types (s l : string) (ls : list string).

Lemma split_nl_single l : nl_free l = true -> split_nl l = [l].
Proof.
  induction l as [|c l IH]; [done|]. simpl.
  intros [Hc Hl]%andb_true_iff.
  destruct (Ascii.eqb c nl); [done|]. by rewrite IH.
Qed.

Lemma split_nl_app_nl l s :
  nl_free l = true -> split_nl (l +:+ NL +:+ s) = l :: split_nl s.
Proof.
  induction l as [|c l IH]; [done|]. rewrite sapp_cons. simpl.
  intros [Hc Hl]%andb_true_iff.
  destruct (Ascii.eqb c nl); [done|]. by rewrite IH.
Qed.

(** [parts.join('\\n').split('\\n')] gives the parts back when there is
    at least one and none holds a line feed. *)
Lemma split_nl_join ls :
  ls ≠ [] -> Forall (λ l, nl_free l = true) ls ->
  split_nl (join NL ls) = ls.
Proof.
  induction ls as [|l ls IH]; [done|]. intros _ Hls.
  apply Forall_cons in Hls as [Hl Hls].
  destruct ls as [|l' ls]; [by apply split_nl_single|].
  rewrite join_cons by done. rewrite split_nl_app_nl by done.
  by rewrite IH.
Qed.

Lemma split_nl_nl_free s : Forall (λ l, nl_free l = true) (split_nl s).
Proof.
  induction s as [|c s IH]; simpl; [by repeat constructor|].
  destruct (Ascii.eqb c nl) eqn:Hc; [by constructor|].
  destruct (split_nl s) as [|l ls]; [by repeat constructor; simpl; rewrite Hc|].
  apply Forall_cons in IH as [Hl Hls].
  constructor; [|done]. simpl. by rewrite Hc.
Qed.
End LineFacts.

(** X12: for a valid index and a line number [0 <= k < lineCount],
    [splitCell] divides the lines of the source at [k]: the new cell,
    inserted right after the original, is a fresh cell of the same type
    (empty metadata, and a reset execution state when it is a code cell)
    holding exactly the lines from [k] on; the original cell keeps its
    metadata, execution count and outputs and holds exactly the lines
    before [k] when [k >= 1], and the empty string when [k = 0]. *)
Theorem splitCell_partitions_lines (nb : notebook) (i k : Z) (c : cell) :
  at_index (cells nb) i = Some c ->
  0 <= k < Z.of_nat (line_count c) ->
  let lines := split_nl (normalize (source c)) in
  ∃ nb' first second,
    splitCell i k nb = (inr (), nb')
    ∧ at_index (cells nb') i = Some first
    ∧ at_index (cells nb') (i + 1) = Some second
    ∧ length (cells nb') = S (length (cells nb))
    ∧ first = mkCell (cell_type c) (metadata c)
                     (SrcStr (join NL (take (Z.to_nat k) lines)))
                     (execution_count c) (outputs c)
    ∧ second = new_cell (cell_type c) (join NL (drop (Z.to_nat k) lines))
    ∧ split_nl (normalize (source second)) = drop (Z.to_nat k) lines
    ∧ (1 <= k ->
       split_nl (normalize (source first)) = take (Z.to_nat k) lines)
    ∧ (k = 0 -> source first = SrcStr "").
Proof.
  intros Hc Hk lines. unfold line_count in Hk. fold lines in Hk.
  pose proof (at_index_range _ _ _ Hc) as (Hi & Hi0 & Hn).
  apply in_range_spec in Hi.
  rewrite splitCell_run, Hc. simpl. fold lines.
  assert (in_range (length lines) k = true) as -> by (by apply in_range_spec).
  do 3 eexists. split; [reflexivity|]. simpl.
  set (n := Z.to_nat i) in *.
  assert (length (take n (cells nb)) = n) as Htake
    by (apply take_length_lt; lia).
  pose proof (split_nl_nl_free (normalize (source c))) as Hfree.
  fold lines in Hfree.
  split; [apply at_index_Some; split; [lia|]; by apply list_lookup_middle|].
  split.
  { apply at_index_Some. split; [lia|].
    replace (Z.to_nat (i + 1)) with (S n) by lia.
    rewrite cons_middle, app_assoc.
    apply list_lookup_middle. rewrite length_app, Htake. simpl. lia. }
  split.
  { rewrite length_app, Htake. simpl. rewrite length_drop. lia. }
  do 2 (split; [reflexivity|]).
  split; [|split].
  - rewrite new_cell_source. simpl. apply split_nl_join.
    + intros Hnil. apply (f_equal length) in Hnil.
      rewrite length_drop in Hnil. simpl in Hnil. lia.
    + by apply Forall_drop.
  - intros Hk1. simpl. apply split_nl_join.
    + intros Hnil. apply (f_equal length) in Hnil.
      rewrite length_take in Hnil. simpl in Hnil. lia.
    + by apply Forall_take.
  - intros ->. done.
Qed.

Lemma splitCell_partitions_lines_witness :
  let lines :=
    split_nl (normalize (source (code_cell two_lines (Some 3) [JStr "out"])))
  in
  ∃ nb' first second,
    splitCell 0 1 sample_notebook = (inr (), nb')
    ∧ at_index (cells nb') 0 = Some first
    ∧ at_index (cells nb') (0 + 1) = Some second
    ∧ length (cells nb') = S (length (cells sample_notebook))
    ∧ first
      = mkCell (cell_type (code_cell two_lines (Some 3) [JStr "out"]))
               (metadata (code_cell two_lines (Some 3) [JStr "out"]))
               (SrcStr (join NL (take (Z.to_nat 1) lines)))
               (execution_count (code_cell two_lines (Some 3) [JStr "out"]))
               (outputs (code_cell two_lines (Some 3) [JStr "out"]))
    ∧ second
      = new_cell (cell_type (code_cell two_lines (Some 3) [JStr "out"]))
                 (join NL (drop (Z.to_nat 1) lines))
    ∧ split_nl (normalize (source second)) = drop (Z.to_nat 1) lines
    ∧ (1 <= 1 ->
       split_nl (normalize (source first)) = take (Z.to_nat 1) lines)
    ∧ (1 = 0 -> source first = SrcStr "").
Proof.
  apply (splitCell_partitions_lines sample_notebook 0 1
           (code_cell two_lines (Some 3) [JStr "out"])).
  - reflexivity.
  - vm_compute. split; [discriminate|reflexivity].
Defined.

(** ** Validation *)

Section ValidationFacts.
Implicit Types (c doc : json) (cs : list json) (i k : nat).

Lemma recognized_type_cases (ty : string) :
  recognized_type ty = true <-> ty = "code" ∨ ty = "markdown" ∨ ty = "raw".
Proof.
  unfold recognized_type. rewrite !orb_true_iff, !String.eqb_eq. tauto.
Qed.

Lemma recognized_type_nonempty (ty : string) :
  recognized_type ty = true -> String.eqb ty "" = false.
Proof.
  intros H. apply recognized_type_cases in H as [-> | [-> | ->]]; reflexivity.
Qed.

(** A cell passes the loop body exactly when it is an object whose
    [cell_type] is one of the three strings and which has a [source]. *)
Lemma validate_cell_passes i c :
  validate_cell i c = None
  <-> ∃ fields ty,
        c = JObj fields
        ∧ assoc "cell_type" fields = Some (JStr ty)
        ∧ recognized_type ty = true
        ∧ assoc "source" fields ≠ None.
Proof.
  split.
  - destruct c as [| | | | |fields]; simpl; try done.
    destruct (assoc "cell_type" fields) as [[| | |ty| |]|] eqn:Hty; simpl;
      rewrite ?orb_true_r; try done.
    destruct (recognized_type ty) eqn:Hrec;
      [|by rewrite orb_true_r].
    rewrite (recognized_type_nonempty _ Hrec). simpl.
    case_bool_decide; [done|]. intros _. by exists fields, ty.
  - intros (fields & ty & -> & Hty & Hrec & Hsrc). simpl.
    rewrite Hty. simpl. rewrite Hrec, (recognized_type_nonempty _ Hrec). simpl.
    by rewrite bool_decide_false.
Qed.

Lemma validate_cell_index i k c :
  validate_cell i c = None -> validate_cell k c = None.
Proof. rewrite !validate_cell_passes. done. Qed.

Lemma validate_cells_passes k cs :
  validate_cells k cs = None <-> Forall (λ c, validate_cell 0 c = None) cs.
Proof.
  revert k. induction cs as [|c cs IH]; intros k; simpl.
  - split; [constructor|done].
  - rewrite Forall_cons. destruct (validate_cell k c) eqn:Hc.
    + split; [done|]. intros [H _].
      apply (validate_cell_index _ k) in H. congruence.
    + rewrite IH. split; [|tauto]. intros H. split; [|done].
      by apply (validate_cell_index k).
Qed.

Lemma validate_cells_first k cs e :
  validate_cells k cs = Some e ->
  ∃ (n : nat) c,
    cs !! n = Some c
    ∧ validate_cell (k + n) c = Some e
    ∧ ∀ (m : nat) c', (m < n)%nat -> cs !! m = Some c' ->
                      validate_cell 0 c' = None.
Proof.
  revert k. induction cs as [|c cs IH]; intros k; simpl; [done|].
  destruct (validate_cell k c) eqn:Hc.
  - intros [= <-]. exists 0%nat, c. rewrite Nat.add_0_r.
    split; [done|]. split; [done|]. intros m c' Hm. lia.
  - intros (n & c' & Hn & He & Hbefore)%IH.
    exists (S n), c'. split; [done|].
    split; [by replace (k + S n)%nat with (S k + n)%nat by lia|].
    intros [|m] c'' Hm; simpl.
    + intros [= <-]. by apply (validate_cell_index k).
    + apply Hbefore. lia.
Qed.

Lemma filter_nil_Forall {A : Type} (P : A -> Prop) `{!∀ x, Decision (P x)}
    (l : list A) :
  filter P l = [] <-> Forall (λ x, ¬ P x) l.
Proof.
  induction l as [|x l IH]; [split; [constructor|done]|].
  rewrite filter_cons, Forall_cons. destruct (decide (P x)).
  - split; [done|]. intros [? _]. done.
  - rewrite IH. tauto.
Qed.
End ValidationFacts.

(** X13: [validateNotebook] reports "passed" exactly for a decoded
    document that is an object holding the four required keys, whose
    [cells] is an array, and in which every cell is an object with a
    [cell_type] among ['code'], ['markdown'], ['raw'] and a [source] key;
    anything else, a document or a cell that is [null] included, is a
    failed validation and never an exception. *)
Theorem validateNotebook_passes_iff (doc : json) :
  validateNotebook doc = None
  <-> ∃ fields cs,
        doc = JObj fields
        ∧ Forall (λ field, assoc field fields ≠ None) requiredFields
        ∧ assoc "cells" fields = Some (JArr cs)
        ∧ Forall (λ c, ∃ cell_fields ty,
                         c = JObj cell_fields
                         ∧ assoc "cell_type" cell_fields = Some (JStr ty)
                         ∧ recognized_type ty = true
                         ∧ assoc "source" cell_fields ≠ None) cs.
Proof.
  split.
  - destruct doc as [| | | | |fields]; simpl; try done.
    case_bool_decide as Hmissing; [|done].
    apply filter_nil_Forall in Hmissing.
    destruct (assoc "cells" fields) as [[| | | |cs|]|] eqn:Hcells; try done.
    intros Hcs%validate_cells_passes.
    exists fields, cs. split; [done|]. split; [done|]. split; [done|].
    eapply Forall_impl; [done|]. intros c Hc.
    by apply (validate_cell_passes 0).
  - intros (fields & cs & -> & Hreq & Hcells & Hcs). simpl.
    rewrite bool_decide_true by (by apply filter_nil_Forall).
    rewrite Hcells. apply validate_cells_passes.
    eapply Forall_impl; [done|]. intros c Hc.
    by apply (validate_cell_passes 0).
Qed.

(** X14: when a document with the four required keys and a [cells] array
    fails validation, the failure reported is that of the first cell, in
    array order, that does not pass: it is raised by the loop body at that
    cell's index, and every cell before it passes. *)
Theorem validateNotebook_first_failure (fields : list (string * json))
    (cs : list json) (e : validation_error) :
  Forall (λ field, assoc field fields ≠ None) requiredFields ->
  assoc "cells" fields = Some (JArr cs) ->
  validateNotebook (JObj fields) = Some e ->
  ∃ (n : nat) c,
    cs !! n = Some c
    ∧ validate_cell n c = Some e
    ∧ (e = ValidationTypeError ∨ (∃ found, e = InvalidCellType n found)
       ∨ e = MissingSource n)
    ∧ ∀ (m : nat) c', (m < n)%nat -> cs !! m = Some c' ->
                      validate_cell m c' = None.
Proof.
  intros Hreq Hcells. simpl.
  rewrite bool_decide_true by (by apply filter_nil_Forall).
  rewrite Hcells. intros (n & c & Hn & He & Hbefore)%validate_cells_first.
  exists n, c. split; [done|]. split; [done|]. split.
  - destruct c as [| | | | |cell_fields]; simpl in He;
      try (injection He as <-; eauto; fail).
    destruct (_ || _); [injection He as <-; eauto|].
    case_bool_decide; [injection He as <-; eauto|done].
  - intros m c' Hm Hc'. apply (validate_cell_index 0). by eapply Hbefore.
Qed.

Lemma validateNotebook_first_failure_witness :
  ∃ (n : nat) c,
    [JObj [("cell_type", JStr "code"); ("source", JStr "x")];
     JObj [("cell_type", JStr "heading"); ("source", JStr "y")];
     JNull] !! n = Some c
    ∧ validate_cell n c
      = Some (InvalidCellType 1 (Some (JStr "heading")))
    ∧ (InvalidCellType 1 (Some (JStr "heading")) = ValidationTypeError
       ∨ (∃ found,
            InvalidCellType 1 (Some (JStr "heading"))
            = InvalidCellType n found)
       ∨ InvalidCellType 1 (Some (JStr "heading")) = MissingSource n)
    ∧ ∀ (m : nat) c', (m < n)%nat ->
        [JObj [("cell_type", JStr "code"); ("source", JStr "x")];
         JObj [("cell_type", JStr "heading"); ("source", JStr "y")];
         JNull] !! m = Some c' ->
        validate_cell m c' = None.
Proof.
  apply (validateNotebook_first_failure
           [("cells",
             JArr [JObj [("cell_type", JStr "code"); ("source", JStr "x")];
                   JObj [("cell_type", JStr "heading"); ("source", JStr "y")];
                   JNull]);
            ("metadata", JObj []); ("nbformat", JNum 4);
            ("nbformat_minor", JNum 4)]).
  - unfold requiredFields. repeat constructor; simpl; discriminate.
  - reflexivity.
  - reflexivity.
Defined.

Section TypedValidation.
Implicit Types (nb : notebook) (c : cell) (cs : list cell).

Lemma validate_cell_to_json (i : nat) c :
  validate_cell i (cell_to_json c)
  = if recognized_type (cell_type c) then None
    else Some (InvalidCellType i (Some (JStr (cell_type c)))).
Proof.
  unfold cell_to_json. simpl.
  destruct (recognized_type (cell_type c)) eqn:Hrec.
  - rewrite (recognized_type_nonempty _ Hrec). simpl.
    by destruct (metadata c).
  - by rewrite orb_true_r.
Qed.

Lemma validate_cells_to_json (k : nat) cs :
  validate_cells k (map cell_to_json cs) = None
  <-> Forall (λ c, recognized_type (cell_type c) = true) cs.
Proof.
  revert k. induction cs as [|c cs IH]; intros k.
  - split; [constructor|done].
  - cbn [map].
    change (validate_cells k (cell_to_json c :: map cell_to_json cs))
      with (match validate_cell k (cell_to_json c) with
            | Some e => Some e
            | None => validate_cells (S k) (map cell_to_json cs)
            end).
    rewrite Forall_cons, validate_cell_to_json.
    destruct (recognized_type (cell_type c)).
    + rewrite IH. tauto.
    + split; [done|]. by intros [? _].
Qed.

(** A notebook record, written out, validates exactly when every cell
    type is one of the three recognized strings. *)
Lemma validate_notebook_to_json nb :
  validateNotebook (notebook_to_json nb) = None
  <-> Forall (λ c, recognized_type (cell_type c) = true) (cells nb).
Proof.
  unfold notebook_to_json, validateNotebook. simpl.
  apply validate_cells_to_json.
Qed.

Lemma duplicated_type c : cell_type (duplicated c) = cell_type c.
Proof. unfold duplicated, json_clone. by destruct (is_code _). Qed.

Lemma clear_outputs_type c : cell_type (clear_outputs c) = cell_type c.
Proof. unfold clear_outputs. by destruct (is_code _). Qed.

(** A handler that returns adds no cell type of its own. *)
Lemma handle_keeps_types req nb nb' :
  request_types_recognized req = true ->
  Forall (λ c, recognized_type (cell_type c) = true) (cells nb) ->
  handle req nb = (inr (), nb') ->
  Forall (λ c, recognized_type (cell_type c) = true) (cells nb').
Proof.
  intros Hreq Htypes. destruct req; simpl in *.
  - rewrite addCell_run. intros [= <-]. simpl.
    rewrite Forall_app, Forall_cons, new_cell_type.
    auto using Forall_take, Forall_drop.
  - rewrite editCell_run. destruct (in_range _ _); intros [= <-]. simpl.
    by apply Forall_alter.
  - rewrite deleteCell_run. destruct (in_range _ _); intros [= <-]. simpl.
    by apply Forall_delete.
  - rewrite changeCellType_run. destruct (in_range _ _); intros [= <-].
    simpl. apply Forall_alter; [done|]. intros c _ _. simpl.
    by destruct (is_code new_type).
  - rewrite duplicateCell_run.
    destruct (at_index _ _) as [c|] eqn:Hc; intros [= <-]. simpl.
    apply at_index_Some in Hc as [_ Hc].
    rewrite !Forall_app. split; [by apply Forall_take|].
    split; [|by apply Forall_drop].
    apply Forall_replicate. rewrite duplicated_type.
    by apply (Forall_lookup_1 _ _ _ _ Htypes Hc).
  - unfold editMetadata, modify_metadata. by intros [= <-].
  - rewrite editCellMetadata_run. destruct (in_range _ _); intros [= <-].
    simpl. by apply Forall_alter.
  - rewrite clearCellOutputs_run. destruct (in_range _ _); intros [= <-].
    simpl. apply Forall_alter; [done|]. intros c _.
    by rewrite clear_outputs_type.
  - unfold clearAllOutputs, modify_cells. intros [= <-]. simpl.
    apply Forall_fmap. eapply Forall_impl; [done|].
    intros c. simpl. by rewrite clear_outputs_type.
  - rewrite moveCell_run.
    destruct (at_index _ _) as [c|] eqn:Hc; [|done].
    destruct (in_range _ _); intros [= <-]. simpl.
    apply at_index_Some in Hc as [_ Hc].
    rewrite Forall_app, Forall_cons.
    split; [by apply Forall_take, Forall_delete|].
    split; [by apply (Forall_lookup_1 _ _ _ _ Htypes Hc)|].
    by apply Forall_drop, Forall_delete.
  - rewrite splitCell_run.
    destruct (at_index _ _) as [c|] eqn:Hc; [|done]. simpl.
    destruct (in_range _ _); intros [= <-]. simpl.
    apply at_index_Some in Hc as [_ Hc].
    pose proof (Forall_lookup_1 _ _ _ _ Htypes Hc) as Hty.
    rewrite Forall_app, !Forall_cons, new_cell_type.
    auto using Forall_take, Forall_drop.
  - rewrite mergeCells_run.
    destruct (at_index _ cell_index0) as [c|] eqn:Hc; [|done].
    destruct (at_index _ (cell_index0 + 1)) as [c'|]; intros [= <-]. simpl.
    apply at_index_Some in Hc as [_ Hc].
    pose proof (Forall_lookup_1 _ _ _ _ Htypes Hc) as Hty.
    rewrite Forall_app, Forall_cons.
    auto using Forall_take, Forall_drop.
  - rewrite editCellOutput_run.
    destruct (at_index _ _) as [c|] eqn:Hc; [|done].
    destruct (is_code _); intros [= <-]. simpl. by apply Forall_alter.
  - rewrite bulkAddCells_run. intros [= <-]. simpl.
    rewrite !Forall_app. split; [by apply Forall_take|].
    split; [|by apply Forall_drop].
    apply Forall_fmap, Forall_forall. intros d Hd. simpl.
    rewrite new_cell_type.
    rewrite forallb_forall in Hreq. by apply Hreq, list_elem_of_In.
Qed.

Lemma call_tool_keeps_types req nb :
  request_types_recognized req = true ->
  Forall (λ c, recognized_type (cell_type c) = true) (cells nb) ->
  Forall (λ c, recognized_type (cell_type c) = true)
         (cells (call_tool req nb).2).
Proof.
  intros Hreq Htypes. unfold call_tool.
  destruct (handle req nb) as [[e|[]] nb'] eqn:Hrun; simpl; [done|].
  by apply (handle_keeps_types req nb).
Qed.

Lemma counts_partition cs :
  (count_type "code" cs + count_type "markdown" cs + count_type "raw" cs
   <= length cs)%nat
  ∧ ((count_type "code" cs + count_type "markdown" cs + count_type "raw" cs
      = length cs)%nat
     <-> Forall (λ c, recognized_type (cell_type c) = true) cs).
Proof.
  unfold count_type. induction cs as [|c cs [IHle IHiff]].
  - split; [done|]. split; [constructor|done].
  - rewrite !filter_cons, Forall_cons, recognized_type_cases.
    destruct (decide (cell_type c = "code")) as [Hc|Hc],
      (decide (cell_type c = "markdown")) as [Hm|Hm],
      (decide (cell_type c = "raw")) as [Hr|Hr];
      try congruence; simpl; (split; [lia|]); rewrite <- IHiff;
      split; try lia; try (intros [[?|[?|?]] ?]; (done || lia));
      intros; (split; [auto|lia]).
Qed.
End TypedValidation.

(** X15: a notebook that validates keeps validating under any run of
    mutation requests whose cell types are among ['code'], ['markdown'],
    ['raw'], whether the single requests succeed or fail. *)
Theorem tools_keep_notebook_valid (nb : notebook) (reqs : list request) :
  validateNotebook (notebook_to_json nb) = None ->
  Forall (λ req, request_types_recognized req = true) reqs ->
  validateNotebook (notebook_to_json (call_tools reqs nb)) = None.
Proof.
  rewrite !validate_notebook_to_json. unfold call_tools.
  intros Hnb Hreqs. revert nb Hnb.
  induction Hreqs as [|req reqs Hreq _ IH]; intros nb Hnb; [done|].
  simpl. apply IH. by apply call_tool_keeps_types.
Qed.

Lemma tools_keep_notebook_valid_witness :
  validateNotebook
    (notebook_to_json
       (call_tools [notebook_add_cell "markdown" "# Title" (-1);
                    notebook_add_cell "code" "print(1)" 0;
                    notebook_duplicate_cell 1 None;
                    notebook_change_cell_type 2 "raw";
                    notebook_merge_cells 7]
                   createEmptyNotebook))
  = None.
Proof.
  apply (tools_keep_notebook_valid createEmptyNotebook).
  - reflexivity.
  - repeat constructor.
Defined.

(** X16: [getNotebookInfo] reports the length of the cell sequence as
    cell count; its three per-type counts never add up to more than that,
    and add up to exactly that if and only if the type of every cell is
    one of ['code'], ['markdown'], ['raw'].  The kernel and language it
    reports are never falsy: a missing or empty name is reported as
    ['unknown']. *)
Theorem getNotebookInfo_counts (nb : notebook) :
  let info := getNotebookInfo nb in
  info_cell_count info = length (cells nb)
  ∧ (info_code_cells info + info_markdown_cells info + info_raw_cells info
     <= info_cell_count info)%nat
  ∧ ((info_code_cells info + info_markdown_cells info + info_raw_cells info
      = info_cell_count info)%nat
     <-> ∀ c, c ∈ cells nb ->
              cell_type c = "code" ∨ cell_type c = "markdown"
              ∨ cell_type c = "raw")
  ∧ truthy (info_kernel info) = true
  ∧ truthy (info_language info) = true
  ∧ (nb_metadata nb !! "kernelspec" = None ->
     info_kernel info = JStr "unknown")
  ∧ (nb_metadata nb !! "language_info" = None ->
     info_language info = JStr "unknown").
Proof.
  intros info. subst info. simpl.
  destruct (counts_partition (cells nb)) as [Hle Hiff].
  assert (∀ v, truthy (name_or_unknown v) = true) as Htruthy.
  { intros v. unfold name_or_unknown.
    destruct v as [[| | | | |fields]|]; try done.
    destruct (assoc "name" fields) as [n|]; [|done].
    by destruct (truthy n) eqn:Hn. }
  split; [done|]. split; [done|]. split.
  { rewrite Hiff, Forall_forall.
    split; intros H c Hc; apply recognized_type_cases; by apply H. }
  do 2 (split; [apply Htruthy|]).
  split; by intros ->.
Qed.

(** ** Titles *)

Section TitleFacts.
Implicit Types (s a b : string) (class : ascii -> bool).

Lemma run_length_stop class a b :
  a ≠ "" -> run_length class a = 0%nat -> run_length class (a +:+ b) = 0%nat.
Proof.
  destruct a as [|c a]; [done|]. intros _. rewrite sapp_cons. simpl.
  by destruct (class c).
Qed.

Lemma run_length_block class a b :
  a ≠ "" -> all_in class a = true -> run_length class b = 0%nat ->
  run_length class (a +:+ b) = String.length a
  ∧ (0 < run_length class (a +:+ b))%nat.
Proof.
  intros Ha Hall Hb. rewrite run_length_app by done. rewrite Hb.
  destruct a; [done|]. simpl. lia.
Qed.

Lemma space_is_not_hash (c : ascii) : is_space c = true -> is_hash c = false.
Proof. by destruct c as [[] [] [] [] [] [] [] []]. Qed.

Lemma spaces_stop_hashes a :
  a ≠ "" -> all_in is_space a = true -> run_length is_hash a = 0%nat.
Proof.
  destruct a as [|c a]; [done|]. simpl.
  intros _ [Hc _]%andb_true_iff. by rewrite (space_is_not_hash _ Hc).
Qed.

Lemma words_stop_spaces a :
  a ≠ "" -> all_in is_word a = true -> run_length is_space a = 0%nat.
Proof.
  destruct a as [|c a]; [done|]. simpl.
  intros _ [Hc _]%andb_true_iff. by rewrite (word_is_not_space _ Hc).
Qed.

Lemma search_from_start (re : list item) s caps :
  match_seq re s = Some caps -> regex_match re s = Some caps.
Proof.
  intros H. unfold regex_match. rewrite search_from_eq. by rewrite H.
Qed.

(** The heading pattern on a source that begins with hashes, blanks and a
    text. *)
Lemma header_capture (hashes ws text rest : string) :
  hashes ≠ "" -> all_in is_hash hashes = true ->
  ws ≠ "" -> all_in is_space ws = true ->
  text ≠ "" -> all_in is_dot text = true ->
  run_length is_space text = 0%nat ->
  run_length is_dot rest = 0%nat ->
  match_seq header_re (hashes +:+ ws +:+ text +:+ rest) = Some [text].
Proof.
  intros Hh Hhash Hw Hspace Ht Hdot Hstart Hrest. unfold header_re.
  destruct (run_length_block is_hash hashes (ws +:+ text +:+ rest))
    as [Hrun1 Hpos1]; [done|done|by apply run_length_stop, spaces_stop_hashes|].
  destruct (run_length_block is_space ws (text +:+ rest))
    as [Hrun2 Hpos2]; [done|done|by apply run_length_stop|].
  destruct (run_length_block is_dot text rest)
    as [Hrun3 Hpos3]; [done..|].
  rewrite (match_seq_longest false is_hash _ _ [text]); [done|done|].
  rewrite Hrun1, sdrop_app.
  rewrite (match_seq_longest false is_space _ _ [text]); [done|done|].
  rewrite Hrun2, sdrop_app.
  rewrite (match_seq_longest true is_dot [] _ []); [|done|done].
  by rewrite Hrun3, stake_app.
Qed.
End TitleFacts.

(** X17: a markdown cell whose source begins with one or more hashes, one
    or more blanks, and a text that does not start with a blank and runs
    to the end of the source or to the first line terminator, is titled
    with exactly that text. *)
Theorem markdown_heading_title (c : cell) (hashes ws text rest : string) :
  cell_type c = "markdown" ->
  normalize (source c) = hashes +:+ ws +:+ text +:+ rest ->
  hashes ≠ "" -> all_in is_hash hashes = true ->
  ws ≠ "" -> all_in is_space ws = true ->
  text ≠ "" -> all_in is_dot text = true ->
  run_length is_space text = 0%nat ->
  run_length is_dot rest = 0%nat ->
  title_suffix c = " - " +:+ text.
Proof.
  intros Hty Hsrc Hh Hhash Hw Hspace Ht Hdot Hstart Hrest.
  unfold title_suffix. rewrite Hty, Hsrc. simpl.
  by rewrite (search_from_start _ _ [text])
    by (by apply header_capture).
Qed.

Lemma markdown_heading_title_witness :
  title_suffix (new_cell "markdown" ("##" +:+ " " +:+ "Title" +:+ (NL +:+ "body")))
  = " - " +:+ "Title".
Proof.
  apply (markdown_heading_title
           (new_cell "markdown" ("##" +:+ " " +:+ "Title" +:+ (NL +:+ "body")))
           "##" " " "Title" (NL +:+ "body")); (reflexivity || discriminate).
Defined.

(** X18: a code cell whose source begins with [def], one or more blanks
    (line breaks included, since the pattern's blank class holds them),
    and a name made of word characters that ends at the end of the source
    or at a character that is not a word character, is titled
    [def name()]. *)
Theorem code_def_title (c : cell) (ws name rest : string) :
  is_code (cell_type c) = true ->
  normalize (source c) = "def" +:+ ws +:+ name +:+ rest ->
  ws ≠ "" -> all_in is_space ws = true ->
  name ≠ "" -> all_in is_word name = true ->
  run_length is_word rest = 0%nat ->
  title_suffix c = " - def " +:+ name +:+ "()".
Proof.
  intros Hcode Hsrc Hw Hspace Hn Hword Hrest.
  unfold title_suffix.
  rewrite (code_is_not_markdown _ Hcode), Hcode, Hsrc.
  by rewrite (search_from_start def_re _ [name])
    by (by apply (keyword_line_capture "def")).
Qed.

Lemma code_def_title_witness :
  title_suffix (new_cell "code" ("def" +:+ NL +:+ "run" +:+ "(x): pass"))
  = " - def " +:+ "run" +:+ "()".
Proof.
  apply (code_def_title
           (new_cell "code" ("def" +:+ NL +:+ "run" +:+ "(x): pass"))
           NL "run" "(x): pass"); (reflexivity || discriminate).
Defined.

(** ** More on search *)

Section SearchMore.
Implicit Types (s q a b : string) (nb : notebook).

Lemma toLowerCase_app a b :
  toLowerCase (a +:+ b) = toLowerCase a +:+ toLowerCase b.
Proof.
  induction a as [|c a IH]; [done|].
  rewrite sapp_cons. simpl. by rewrite IH, sapp_cons.
Qed.

Lemma includes_toLowerCase s q :
  includes s q = true -> includes (toLowerCase s) (toLowerCase q) = true.
Proof.
  rewrite !includes_spec. intros (a & b & ->).
  exists (toLowerCase a), (toLowerCase b). by rewrite !toLowerCase_app.
Qed.

Lemma includes_empty s : includes s "" = true.
Proof. by destruct s. Qed.

Lemma fold_case_empty (caseSensitive : bool) : fold_case caseSensitive "" = "".
Proof. by destruct caseSensitive. Qed.

Lemma filter_all {A : Type} (P : A -> Prop) `{!∀ x, Decision (P x)}
    (l : list A) :
  Forall P l -> filter P l = l.
Proof.
  induction 1 as [|x l Hx _ IH]; [done|].
  by rewrite filter_cons_True, IH.
Qed.

Lemma omap_imap_Some {A B : Type} (f : nat -> A -> B) (l : list A) :
  omap id (imap (λ i x, Some (f i x)) l) = imap f l.
Proof.
  revert f. induction l as [|x l IH]; intros f; [done|].
  rewrite !imap_cons. simpl. f_equal. apply IH.
Qed.

Lemma result_indices_sublist (f : nat -> cell -> option search_result)
    (cs : list cell) (k : nat) :
  (∀ i c r, f i c = Some r -> cell_index r = (k + i)%nat) ->
  map cell_index (omap id (imap f cs)) `sublist_of` seq k (length cs).
Proof.
  revert f k. induction cs as [|c cs IH]; intros f k Hf; [constructor|].
  rewrite imap_cons. cbn [length seq].
  assert (map cell_index (omap id (imap (f ∘ S) cs))
            `sublist_of` seq (S k) (length cs)) as Hrest.
  { apply IH. intros i c' r Hr. simpl in Hr. apply Hf in Hr. lia. }
  destruct (f 0%nat c) as [r|] eqn:Hr; simpl.
  - apply Hf in Hr. rewrite Hr, Nat.add_0_r. by constructor.
  - by constructor.
Qed.

Lemma search_cell_index query (caseSensitive : bool) (i : nat) c r :
  search_cell query caseSensitive i c = Some r -> cell_index r = i.
Proof.
  unfold search_cell. simpl. destruct (includes _ _); [|done].
  by intros [= <-].
Qed.
End SearchMore.

(** X19: on text made of code units below 256 (the model's strings, on
    which lower-casing is a map of single units), whatever the
    case-sensitive search reports, the case-insensitive search of the same
    query reports too: every cell reported with [caseSensitive = true] is
    reported with [caseSensitive = false], with the same type and with
    every line match of the former among its matches. *)
Theorem case_insensitive_search_finds_more (nb : notebook) (query : string)
    (r : search_result) :
  r ∈ searchNotebook nb query true ->
  ∃ r', r' ∈ searchNotebook nb query false
        ∧ cell_index r' = cell_index r
        ∧ result_cell_type r' = result_cell_type r
        ∧ ∀ m, m ∈ matches r -> m ∈ matches r'.
Proof.
  intros (index & c & Hc & Hr)%elem_of_searchNotebook.
  unfold search_cell in Hr. simpl in Hr.
  destruct (includes _ _) eqn:Hinc; [|done]. injection Hr as <-.
  apply includes_toLowerCase in Hinc.
  eexists. split.
  - apply elem_of_searchNotebook. exists index, c. split; [done|].
    unfold search_cell. simpl. by rewrite Hinc.
  - simpl. do 2 (split; [done|]).
    intros m (p & -> & Hp)%list_elem_of_fmap.
    apply list_elem_of_fmap. exists p. split; [done|].
    unfold matchingLines in *.
    apply list_elem_of_filter in Hp as [Hline Hp].
    apply list_elem_of_filter. split; [|done].
    simpl in *. by apply includes_toLowerCase.
Qed.

Lemma case_insensitive_search_finds_more_witness :
  ∃ r', r' ∈ searchNotebook sample_notebook "b" false
        ∧ cell_index r'
          = cell_index (mkSearchResult 0 "code" [mkLineMatch 2 "b"])
        ∧ result_cell_type r'
          = result_cell_type (mkSearchResult 0 "code" [mkLineMatch 2 "b"])
        ∧ ∀ m, m ∈ matches (mkSearchResult 0 "code" [mkLineMatch 2 "b"]) ->
               m ∈ matches r'.
Proof.
  apply (case_insensitive_search_finds_more sample_notebook "b"
           (mkSearchResult 0 "code" [mkLineMatch 2 "b"])).
  vm_compute. left.
Defined.

(** X20: the empty query matches everything: whatever the flag, search
    then reports every cell, in order, each with one match per line of its
    source, numbered from 1 and trimmed. *)
Theorem search_empty_query (nb : notebook) (caseSensitive : bool) :
  searchNotebook nb "" caseSensitive
  = imap (λ index c,
            mkSearchResult index (cell_type c)
              (imap (λ lineIndex line,
                       mkLineMatch (Z.of_nat lineIndex + 1) (trim line))
                    (split_nl (normalize (source c)))))
         (cells nb).
Proof.
  unfold searchNotebook.
  etrans; [|apply omap_imap_Some]. f_equal. apply imap_ext.
  intros index c _. unfold search_cell. simpl.
  rewrite fold_case_empty, includes_empty. do 2 f_equal.
  unfold matchingLines. rewrite filter_all.
  - change (map ?g ?l) with (g <$> l). by rewrite fmap_imap.
  - apply Forall_forall. intros p _. simpl. apply includes_empty.
Qed.

(** X21: search results come in cell order, at most one per cell: the
    cell indices of the results, in the order reported, are a subsequence
    of [0, 1, ..., len - 1], hence without repetition. *)
Theorem search_results_in_cell_order (nb : notebook) (query : string)
    (caseSensitive : bool) :
  map cell_index (searchNotebook nb query caseSensitive)
    `sublist_of` seq 0 (length (cells nb))
  ∧ NoDup (map cell_index (searchNotebook nb query caseSensitive)).
Proof.
  assert (map cell_index (searchNotebook nb query caseSensitive)
            `sublist_of` seq 0 (length (cells nb))) as Hsub.
  { unfold searchNotebook. apply result_indices_sublist.
    intros i c r Hr. by apply search_cell_index in Hr. }
  split; [done|]. eapply sublist_NoDup; [apply NoDup_seq|done].
Qed.

(** ** What the cell tools leave alone *)

Section FrameFacts.
Implicit Types (nb : notebook) (req : request).

(** A handler that returns has changed the cells or the document
    metadata, never both, and never the format version. *)
Lemma handle_frame req nb nb' :
  handle req nb = (inr (), nb') ->
  nbformat nb' = nbformat nb
  ∧ nbformat_minor nb' = nbformat_minor nb
  ∧ ((∀ md, req ≠ notebook_edit_metadata md) ->
     nb_metadata nb' = nb_metadata nb)
  ∧ ((∃ md, req = notebook_edit_metadata md) -> cells nb' = cells nb).
Proof.
  destruct req; simpl.
  - rewrite addCell_run. intros [= <-]. repeat split. by intros [? ?].
  - rewrite editCell_run. destruct (in_range _ _); intros [= <-].
    repeat split. by intros [? ?].
  - rewrite deleteCell_run. destruct (in_range _ _); intros [= <-].
    repeat split. by intros [? ?].
  - rewrite changeCellType_run. destruct (in_range _ _); intros [= <-].
    repeat split. by intros [? ?].
  - rewrite duplicateCell_run. destruct (at_index _ _); intros [= <-].
    repeat split. by intros [? ?].
  - unfold editMetadata, modify_metadata. intros [= <-]. simpl.
    repeat split. intros H. by destruct (H md).
  - rewrite editCellMetadata_run. destruct (in_range _ _); intros [= <-].
    repeat split. by intros [? ?].
  - rewrite clearCellOutputs_run. destruct (in_range _ _); intros [= <-].
    repeat split. by intros [? ?].
  - unfold clearAllOutputs, modify_cells. intros [= <-].
    repeat split. by intros [? ?].
  - rewrite moveCell_run. destruct (at_index _ _); [|done].
    destruct (in_range _ _); intros [= <-]. repeat split. by intros [? ?].
  - rewrite splitCell_run. destruct (at_index _ _); [|done]. simpl.
    destruct (in_range _ _); intros [= <-]. repeat split. by intros [? ?].
  - rewrite mergeCells_run. destruct (at_index _ cell_index0); [|done].
    destruct (at_index _ (cell_index0 + 1)); intros [= <-].
    repeat split. by intros [? ?].
  - rewrite editCellOutput_run. destruct (at_index _ _); [|done].
    destruct (is_code _); intros [= <-]. repeat split. by intros [? ?].
  - rewrite bulkAddCells_run. intros [= <-]. repeat split. by intros [? ?].
Qed.

Lemma handle_count req nb nb' :
  handle req nb = (inr (), nb') ->
  Z.of_nat (length (cells nb'))
  = Z.of_nat (length (cells nb)) + count_change req.
Proof.
  destruct req; simpl.
  - rewrite addCell_run. intros [= <-]. simpl. rewrite length_inserted. lia.
  - rewrite editCell_run. destruct (in_range _ _); intros [= <-]. simpl.
    rewrite length_alter. lia.
  - rewrite deleteCell_run. destruct (in_range _ _) eqn:Hi; intros [= <-].
    simpl. apply in_range_spec in Hi.
    rewrite length_delete by (apply lookup_lt_is_Some; lia). lia.
  - rewrite changeCellType_run. destruct (in_range _ _); intros [= <-].
    simpl. rewrite length_alter. lia.
  - rewrite duplicateCell_run.
    destruct (at_index _ _) as [c|] eqn:Hc; intros [= <-]. simpl.
    apply at_index_range in Hc as (Hi & _ & _). apply in_range_spec in Hi.
    rewrite !length_app, length_take, length_replicate, length_drop. lia.
  - unfold editMetadata, modify_metadata. intros [= <-]. simpl. lia.
  - rewrite editCellMetadata_run. destruct (in_range _ _); intros [= <-].
    simpl. rewrite length_alter. lia.
  - rewrite clearCellOutputs_run. destruct (in_range _ _); intros [= <-].
    simpl. rewrite length_alter. lia.
  - unfold clearAllOutputs, modify_cells. intros [= <-]. simpl.
    rewrite length_map. lia.
  - rewrite moveCell_run.
    destruct (at_index _ _) as [c|] eqn:Hc; [|done].
    destruct (in_range _ _); intros [= <-]. simpl.
    apply at_index_range in Hc as (Hi & _ & _). apply in_range_spec in Hi.
    rewrite length_inserted.
    rewrite length_delete by (apply lookup_lt_is_Some; lia). lia.
  - rewrite splitCell_run.
    destruct (at_index _ _) as [c|] eqn:Hc; [|done]. simpl.
    destruct (in_range _ _); intros [= <-]. simpl.
    apply at_index_range in Hc as (Hi & _ & _). apply in_range_spec in Hi.
    rewrite length_app, length_take. simpl. rewrite length_drop. lia.
  - rewrite mergeCells_run.
    destruct (at_index _ cell_index0) as [c|] eqn:Hc; [|done].
    destruct (at_index _ (cell_index0 + 1)) as [c'|] eqn:Hc';
      intros [= <-]. simpl.
    apply at_index_range in Hc' as (Hi & _ & _). apply in_range_spec in Hi.
    apply at_index_range in Hc as (_ & Hi0 & _).
    rewrite length_app, length_take. simpl. rewrite length_drop. lia.
  - rewrite editCellOutput_run. destruct (at_index _ _); [|done].
    destruct (is_code _); intros [= <-]. simpl. rewrite length_alter. lia.
  - rewrite bulkAddCells_run. intros [= <-]. simpl.
    pose proof (clamp_le (length (cells nb)) (index + 1)).
    rewrite !length_app, length_take, length_map, length_drop. lia.
Qed.
End FrameFacts.

(** X22: whatever the request and whether it succeeds or fails, a call of
    a mutation tool leaves the format version of the persisted document
    as it was; only [notebook_edit_metadata] changes the document
    metadata, and it does not change the cells. *)
Theorem tools_keep_format (req : request) (file : notebook) :
  nbformat (call_tool req file).2 = nbformat file
  ∧ nbformat_minor (call_tool req file).2 = nbformat_minor file
  ∧ ((∀ md, req ≠ notebook_edit_metadata md) ->
     nb_metadata (call_tool req file).2 = nb_metadata file)
  ∧ ((∃ md, req = notebook_edit_metadata md) ->
     cells (call_tool req file).2 = cells file).
Proof.
  unfold call_tool.
  destruct (handle req file) as [[e|[]] nb'] eqn:Hrun; simpl; [done|].
  by apply handle_frame.
Qed.

(** X23: a mutation request that succeeds changes the number of cells by
    a fixed amount: one more for an insert or a split, one per entry for
    a bulk insert, [max count 0] for a duplicate, one less for a delete or
    a merge, and none for every other tool. *)
Theorem count_after_request (req : request) (file nb' : notebook) :
  call_tool req file = (None, nb') ->
  Z.of_nat (length (cells nb'))
  = Z.of_nat (length (cells file)) + count_change req.
Proof.
  unfold call_tool.
  destruct (handle req file) as [[e|[]] nb''] eqn:Hrun; [done|].
  intros [= <-]. by apply handle_count.
Qed.

Lemma count_after_request_witness :
  Z.of_nat (length (cells (set_cells sample_notebook
     [code_cell two_lines (Some 3) [JStr "out"];
      code_cell two_lines None []; code_cell two_lines None [];
      code_cell two_lines None [];
      new_cell "markdown" "# Title"])))
  = Z.of_nat (length (cells sample_notebook))
    + count_change (notebook_duplicate_cell 0 (Some 3)).
Proof.
  apply (count_after_request (notebook_duplicate_cell 0 (Some 3))
           sample_notebook).
  reflexivity.
Defined.

(** X24: for a valid index, [splitCell] at line 0 always succeeds and
    leaves the original cell with the empty string as source, the whole
    source going to the new cell; a [mergeCells] of the same index right
    after succeeds and leaves at that index the original cell with one
    line feed followed by its normalized source, every other cell being as
    before the split. *)
Theorem split_at_zero_then_merge (nb : notebook) (i : Z) (c : cell) :
  at_index (cells nb) i = Some c ->
  ∃ nb1 nb2,
    splitCell i 0 nb = (inr (), nb1)
    ∧ at_index (cells nb1) i = Some (set_source c (SrcStr ""))
    ∧ at_index (cells nb1) (i + 1)
      = Some (new_cell (cell_type c) (normalize (source c)))
    ∧ mergeCells i nb1 = (inr (), nb2)
    ∧ nb2 = set_cells nb
              (<[Z.to_nat i :=
                   set_source c (SrcStr (NL +:+ normalize (source c)))]>
                 (cells nb)).
Proof.
  intros Hc.
  pose proof Hc as Hc0. apply at_index_range in Hc0 as (Hi & Hi0 & Hn).
  apply in_range_spec in Hi.
  set (n := Z.to_nat i) in *.
  assert (n < length (cells nb))%nat as Hlt by lia.
  rewrite splitCell_run, Hc. simpl.
  pose proof (split_nl_length (normalize (source c))) as Hlines.
  assert (in_range (length (split_nl (normalize (source c)))) 0 = true) as ->
    by (apply in_range_spec; lia).
  change (Z.to_nat 0) with 0%nat. rewrite drop_0, join_split_nl.
  eexists. eexists. split; [reflexivity|].
  set (cs1 := take _ _ ++ _).
  assert (cs1 !! n = Some (set_source c (SrcStr ""))) as H1.
  { unfold cs1.
    by rewrite list_lookup_middle by (by rewrite take_length_lt by lia). }
  assert (cs1 !! S n
          = Some (new_cell (cell_type c) (normalize (source c)))) as H2.
  { unfold cs1. rewrite cons_middle, app_assoc.
    by rewrite list_lookup_middle
      by (rewrite length_app, take_length_lt by lia; simpl; lia). }
  assert (at_index cs1 i = Some (set_source c (SrcStr ""))) as Hat1
    by (apply at_index_Some; done).
  assert (at_index cs1 (i + 1)
          = Some (new_cell (cell_type c) (normalize (source c)))) as Hat2.
  { apply at_index_Some. split; [lia|].
    by replace (Z.to_nat (i + 1)) with (S n) by lia. }
  do 2 (split; [done|]).
  rewrite mergeCells_run. simpl. rewrite Hat1, Hat2.
  rewrite new_cell_source. simpl. fold n. rewrite sapp_nil_l.
  assert (take n cs1 = take n (cells nb)) as ->
    by (unfold cs1; apply take_take_app; lia).
  assert (drop (S (S n)) cs1 = drop (S n) (cells nb)) as ->.
  { unfold cs1.
    change (?x :: ?y :: ?l) with ([x; y] ++ l).
    replace (S (S n)) with (n + length [set_source c (SrcStr "");
      new_cell (cell_type c) (normalize (source c))])%nat by (simpl; lia).
    apply drop_take_app. lia. }
  rewrite set_cells_set_cells.
  split; [reflexivity|].
  by rewrite <- insert_take_drop by done.
Qed.

Lemma split_at_zero_then_merge_witness :
  ∃ nb1 nb2,
    splitCell 0 0 sample_notebook = (inr (), nb1)
    ∧ at_index (cells nb1) 0
      = Some (set_source (code_cell two_lines (Some 3) [JStr "out"])
                         (SrcStr ""))
    ∧ at_index (cells nb1) (0 + 1)
      = Some (new_cell (cell_type (code_cell two_lines (Some 3) [JStr "out"]))
                (normalize
                   (source (code_cell two_lines (Some 3) [JStr "out"]))))
    ∧ mergeCells 0 nb1 = (inr (), nb2)
    ∧ nb2 = set_cells sample_notebook
              (<[Z.to_nat 0 :=
                   set_source (code_cell two_lines (Some 3) [JStr "out"])
                     (SrcStr (NL +:+ normalize (source
                        (code_cell two_lines (Some 3) [JStr "out"]))))]>
                 (cells sample_notebook)).
Proof.
  apply (split_at_zero_then_merge sample_notebook 0
           (code_cell two_lines (Some 3) [JStr "out"])).
  reflexivity.
Defined.
